(** * BTC momentum dashboard: the loader and the rendering pass

    A shallow embedding of [backtest/src/dashboard.py].  The script reads four
    CSV files, keeps each timeline from its first row with positive equity on,
    and then runs one straight-line rendering pass for the period the user
    picked.  Every pandas operation the script calls is given here by what it
    does on the tables of that script:

    - numbers are binary64 floats ([PrimFloat.float], NaN for a missing cell);
    - a table is the list of the column names of its header together with its
      rows; a row is a record with one typed field per column of the fixed
      schema, and a field whose column is absent from the header is never read
      (every read goes through [require], which raises [KeyError]); a cell
      whose text does not parse as the type of its column is outside the
      model;
    - an exception is a value of [Exception]; code that may raise returns a
      [result] and is sequenced with [x <- c ;; k];
    - the two aggregates whose last digits depend on the order of the
      additions, the sum of a day and the rolling standard deviation, follow
      pandas' kernels step by step ([group_sum], [roll_var]).

    The definitions of the script come first, then the vocabulary of the
    statements and the sample tables, then the proofs. *)

From Stdlib Require Import List String Bool ZArith Lia Floats.
From Stdlib Require Import Sorting.Sorted.
From Stdlib Require Uint63.
Import ListNotations.

Open Scope string_scope.
Open Scope list_scope.

(** ** Exceptions *)

Inductive Exception : Type :=
| FileNotFoundError (path : string)
| KeyError (column : string)
| NonUniqueLabel (label : Z)   (* KeyError: cannot get slice bound for non-unique label *)
| IndexError                   (* single positional indexer is out-of-bounds *)
| ValueError.                  (* attempt to get argmax of an empty sequence *)

Inductive result (A : Type) : Type :=
| Ok (a : A)
| Raise (e : Exception).

Arguments Ok {A} a.
Arguments Raise {A} e.

Definition bind {A B : Type} (c : result A) (k : A -> result B) : result B :=
  match c with
  | Ok a => k a
  | Raise e => Raise e
  end.

Notation "x <- c ;; k" := (bind c (fun x => k))
  (at level 61, c at next level, right associativity).
Notation "' pat <- c ;; k" := (bind c (fun x => match x with pat => k end))
  (at level 61, pat pattern, c at next level, right associativity).

Fixpoint mapM {A B : Type} (f : A -> result B) (l : list A) : result (list B) :=
  match l with
  | [] => Ok []
  | a :: l' => b <- f a ;; bs <- mapM f l' ;; Ok (b :: bs)
  end.

(** ** Tables *)

(** An index label: a parsed timestamp, in nanoseconds since the epoch. *)
Definition Timestamp : Type := Z.
Bind Scope Z_scope with Timestamp.

(** [bool(label)]: a Python datetime is always true. *)
Definition truthy (label : Timestamp) : bool := true.

Definition nanoseconds_per_day : Z := 86400 * 1000000000.

(** [index.date]: the calendar day of a timestamp, in days since the epoch. *)
Definition date (t : Timestamp) : Z := (t / nanoseconds_per_day)%Z.

(** One row of a timeline file; [time] is the index column. *)
Record TimelineRow : Type := mkTimelineRow {
  time : Timestamp;
  equity : float;
  volume_usd : float;
  signal : float;
  price : float;
  qty : float;
  pnl : float;
  is_entry : bool;
  is_exit : bool
}.

Record TimelineFrame : Type := mkTimelineFrame {
  t_columns : list string;
  t_rows : list TimelineRow
}.

(** One row of the performance summary. *)
Record SummaryRow : Type := mkSummaryRow {
  period : string;
  start_date : Timestamp;
  end_date : Timestamp;
  rows : Z;
  initial_capital : float;
  net_pnl : float;
  total_return_pct : float;
  sharpe_ratio : float;
  max_drawdown_pct : float;
  win_rate_pct : float;
  trades_per_year : float;
  avg_hold_hours : float;
  total_volume_usd : float;
  avg_daily_volume : float;
  avg_hourly_volume : float;
  actual_trades : Z;
  signal_flips : Z
}.

Record SummaryFrame : Type := mkSummaryFrame {
  s_columns : list string;
  s_rows : list SummaryRow
}.

(** A column with its index, as [df[name]] returns it. *)
Definition Series (A : Type) : Type := list (Timestamp * A).

Definition has_column (columns : list string) (name : string) : bool :=
  existsb (String.eqb name) columns.

(** The header lookup behind every [df[name]] and [row[name]]. *)
Definition require (columns : list string) (name : string) : result unit :=
  if has_column columns name then Ok tt else Raise (KeyError name).

(** [df[name]] on a timeline; [field] is the typed field of column [name]. *)
Definition getitem {A : Type} (df : TimelineFrame) (name : string)
    (field : TimelineRow -> A) : result (Series A) :=
  _ <- require (t_columns df) name ;;
  Ok (map (fun r => (time r, field r)) (t_rows df)).

Definition values {A : Type} (s : Series A) : list A := map snd s.

(** ** The files *)

(** The results directory as the loader sees it: which paths exist, and what
    [pd.read_csv] yields for a path with the arguments of each call site. *)
Record FileSystem : Type := mkFileSystem {
  is_file : string -> bool;
  summary_at : string -> SummaryFrame;    (* pd.read_csv(path) *)
  timeline_at : string -> TimelineFrame   (* pd.read_csv(path, index_col=0, parse_dates=True) *)
}.

Definition read_csv_summary (fs : FileSystem) (path : string) : result SummaryFrame :=
  if is_file fs path then Ok (summary_at fs path) else Raise (FileNotFoundError path).

Definition read_csv_timeline (fs : FileSystem) (path : string) : result TimelineFrame :=
  if is_file fs path then Ok (timeline_at fs path) else Raise (FileNotFoundError path).

Definition results_dir : string := "./results".

Definition summary_path : string :=
  (results_dir ++ "/performance_summary.csv")%string.

Definition timeline_path (p : string) : string :=
  (results_dir ++ "/timeline_" ++ p ++ ".csv")%string.

Definition periods : list string := ["last_month"; "full_3mo"; "prior_2mo"].

Definition expected_files : list string := summary_path :: map timeline_path periods.

(** ** load_backtest_data *)

(** [df["equity"] > 0], at one row; a missing value is not positive. *)
Definition positive (e : float) : bool := (0 <? e)%float.

Fixpoint first_true (s : Series bool) : option Timestamp :=
  match s with
  | [] => None
  | (t, b) :: s' => if b then Some t else first_true s'
  end.

(** [Series.idxmax] on a boolean series: the label of the first [True]; the
    first label when every value is [False] (the maximum is then [False], first
    met at position 0); [ValueError] on an empty series. *)
Definition idxmax (s : Series bool) : result Timestamp :=
  match s with
  | [] => Raise ValueError
  | (t0, _) :: _ =>
      match first_true s with
      | Some t => Ok t
      | None => Ok t0
      end
  end.

(** The rows from the first occurrence of [label] on. *)
Fixpoint from_label (label : Timestamp) (l : list TimelineRow) : list TimelineRow :=
  match l with
  | [] => []
  | r :: l' => if (time r =? label)%Z then l else from_label label l'
  end.

(** What follows the leading run of rows labelled [label]. *)
Fixpoint after_run (label : Timestamp) (l : list TimelineRow) : list TimelineRow :=
  match l with
  | [] => []
  | r :: l' => if (time r =? label)%Z then after_run label l' else l
  end.

(** [df.loc[label:]] for a label of the index: the slice starts at the first
    occurrence of the label; pandas refuses a label whose occurrences are not
    adjacent. *)
Definition loc_from (df : TimelineFrame) (label : Timestamp) : result TimelineFrame :=
  let kept := from_label label (t_rows df) in
  if existsb (fun r => (time r =? label)%Z) (after_run label kept)
  then Raise (NonUniqueLabel label)
  else Ok {| t_columns := t_columns df; t_rows := kept |}.

(** The body of the loader's loop after [read_csv] (dashboard.py, lines 22-28). *)
Definition trim_warmup (df : TimelineFrame) : result TimelineFrame :=
  equity_col <- getitem df "equity" equity ;;
  first_equity_idx <- idxmax (map (fun '(t, e) => (t, positive e)) equity_col) ;;
  if truthy first_equity_idx then loc_from df first_equity_idx else Ok df.

(** The loop over the three periods; the dict it fills keeps insertion order. *)
Fixpoint load_timelines (fs : FileSystem) (ps : list string)
    : result (list (string * TimelineFrame)) :=
  match ps with
  | [] => Ok []
  | p :: ps' =>
      df <- read_csv_timeline fs (timeline_path p) ;;
      df' <- trim_warmup df ;;
      timelines <- load_timelines fs ps' ;;
      Ok ((p, df') :: timelines)
  end.

(** The two [pd.to_datetime] assignments read the column they replace. *)
Definition load_backtest_data (fs : FileSystem)
    : result (SummaryFrame * list (string * TimelineFrame)) :=
  summary_df <- read_csv_summary fs summary_path ;;
  _ <- require (s_columns summary_df) "start_date" ;;
  _ <- require (s_columns summary_df) "end_date" ;;
  timelines <- load_timelines fs periods ;;
  Ok (summary_df, timelines).

(** ** The rendering pass *)

(** The three entries of the period selector. *)
Inductive Selection : Type := Last_Month | Full_3_Months | Prior_2_Months.

Definition selected_period_name (sel : Selection) : string :=
  match sel with
  | Last_Month => "Last Month"
  | Full_3_Months => "Full 3 Months"
  | Prior_2_Months => "Prior 2 Months"
  end.

Definition period_options : list (string * string) :=
  [("Last Month", "last_month");
   ("Full 3 Months", "full_3mo");
   ("Prior 2 Months", "prior_2mo")].

Definition period_names : list (string * string) :=
  [("last_month", "Last Month");
   ("full_3mo", "Full 3 Months");
   ("prior_2mo", "Prior 2 Months")].

(** [d[k]] on a dict with string keys. *)
Fixpoint dict_get {V : Type} (d : list (string * V)) (k : string) : result V :=
  match d with
  | [] => Raise (KeyError k)
  | (k', v) :: d' => if String.eqb k k' then Ok v else dict_get d' k
  end.

(** [summary_df[summary_df["period"] == selected_period].iloc[0]] *)
Definition select_period (summary_df : SummaryFrame) (selected_period : string)
    : result SummaryRow :=
  _ <- require (s_columns summary_df) "period" ;;
  match filter (fun r => String.eqb (period r) selected_period) (s_rows summary_df) with
  | [] => Raise IndexError
  | r :: _ => Ok r
  end.

(** [row[name]] on a row of the summary table. *)
Definition row_get {A : Type} (summary_df : SummaryFrame) (row : SummaryRow)
    (name : string) (field : SummaryRow -> A) : result A :=
  _ <- require (s_columns summary_df) name ;;
  Ok (field row).

(** [Series.ffill]: a missing value takes the last value seen before it. *)
Fixpoint ffill_from (last : float) (s : Series float) : Series float :=
  match s with
  | [] => []
  | (t, x) :: s' =>
      if is_nan x then (t, last) :: ffill_from last s'
      else (t, x) :: ffill_from x s'
  end.

Definition ffill (s : Series float) : Series float := ffill_from nan s.

(** What [fillna(0)] makes of a value. *)
Definition fill0 (x : float) : float := if is_nan x then 0%float else x.

(** [Series.fillna(0)] *)
Definition fillna0 (s : Series float) : Series float :=
  map (fun '(t, x) => (t, fill0 x)) s.

(** [equity - initial_capital] *)
Definition cum_pnl_of (equity_curve : Series float) (capital : float) : Series float :=
  map (fun '(t, e) => (t, (e - capital)%float)) equity_curve.

(** An f-string field: the format specification and the number it is given. *)
Inductive Number : Type := Float (x : float) | Int (z : Z).
Definition Formatted : Type := (string * Number)%type.

Record Header : Type := mkHeader {
  h_start : Timestamp;
  h_end : Timestamp;
  h_rows : Z;
  h_initial_capital : Formatted
}.

Definition summary_header (summary_df : SummaryFrame) (period_summary : SummaryRow)
    (capital : float) : result Header :=
  s <- row_get summary_df period_summary "start_date" start_date ;;
  e <- row_get summary_df period_summary "end_date" end_date ;;
  n <- row_get summary_df period_summary "rows" rows ;;
  Ok {| h_start := s; h_end := e; h_rows := n;
        h_initial_capital := (".2f", Float capital) |}.

Definition metrics_data (summary_df : SummaryFrame) (period_summary : SummaryRow)
    : result (list (string * Formatted)) :=
  v1 <- row_get summary_df period_summary "net_pnl" net_pnl ;;
  v2 <- row_get summary_df period_summary "total_return_pct" total_return_pct ;;
  v3 <- row_get summary_df period_summary "sharpe_ratio" sharpe_ratio ;;
  v4 <- row_get summary_df period_summary "max_drawdown_pct" max_drawdown_pct ;;
  v5 <- row_get summary_df period_summary "win_rate_pct" win_rate_pct ;;
  v6 <- row_get summary_df period_summary "trades_per_year" trades_per_year ;;
  v7 <- row_get summary_df period_summary "avg_hold_hours" avg_hold_hours ;;
  v8 <- row_get summary_df period_summary "total_volume_usd" total_volume_usd ;;
  v9 <- row_get summary_df period_summary "avg_daily_volume" avg_daily_volume ;;
  v10 <- row_get summary_df period_summary "avg_hourly_volume" avg_hourly_volume ;;
  v11 <- row_get summary_df period_summary "actual_trades" actual_trades ;;
  v12 <- row_get summary_df period_summary "signal_flips" signal_flips ;;
  Ok [("Net PnL (USD)", (".2f", Float v1));
      ("Total Return (%)", (".2f", Float v2));
      ("Sharpe Ratio", (".3f", Float v3));
      ("Max Drawdown (%)", (".2f", Float v4));
      ("Win Rate (%)", (".1f", Float v5));
      ("Trades Per Year", (".0f", Float v6));
      ("Avg Hold Time (hrs)", (".2f", Float v7));
      ("Total Volume (USD)", (",.0f", Float v8));
      ("Daily Volume (USD)", (",.0f", Float v9));
      ("Hourly Volume (USD)", (",.0f", Float v10));
      ("Actual Trades", (",", Int v11));
      ("Signal Flips", (",", Int v12))].

(** *** Daily volume *)

(** The state of one group in the kernel behind [sum] (pandas' [group_sum]):
    the running sum and the rounding compensation carried along with it. *)
Record GroupSum : Type := mkGroupSum {
  sumx : float;
  compensation : float
}.

(** A group before its first row. *)
Definition group_start : GroupSum := {| sumx := 0; compensation := 0 |}.

(** One more value for a group: a missing value is skipped; any other is
    added by a step of Kahan's compensated summation, and a compensation that
    comes out missing (an infinite value was added) is put back to zero. *)
Definition plus (s : GroupSum) (val : float) : GroupSum :=
  if is_nan val then s
  else
    let y := (val - compensation s)%float in
    let t := (sumx s + y)%float in
    let c := (t - sumx s - y)%float in
    {| sumx := t; compensation := if is_nan c then 0%float else c |}.

(** The groups met so far, by increasing date; a row either opens the group
    of its date or adds to it. *)
Fixpoint add_to (d : Z) (v : float) (acc : list (Z * GroupSum))
    : list (Z * GroupSum) :=
  match acc with
  | [] => [(d, plus group_start v)]
  | (d', s) :: acc' =>
      if (d <? d')%Z then (d, plus group_start v) :: acc
      else if (d =? d')%Z then (d', plus s v) :: acc'
      else (d', s) :: add_to d v acc'
  end.

(** [groupby(index.date)[...].sum()]: one pass over the rows, each row added
    to the group of its date; the result is ordered by date and holds the sum
    of each group ([min_count] is 0, so a group of missing values only has
    the sum 0). *)
Definition groupby_date_sum (s : Series float) : list (Z * float) :=
  map (fun '(d, g) => (d, sumx g))
      (fold_left (fun acc '(t, v) => add_to (date t) v acc) s []).

Definition daily_volume_of (timeline_df : TimelineFrame) : result (list (Z * float)) :=
  volume <- getitem timeline_df "volume_usd" volume_usd ;;
  Ok (groupby_date_sum volume).

(** *** Volatility *)

(** [Series.pct_change]: each value divided by the one before it, minus one
    ([data / data.shift(1) - 1]); the first value is divided by a missing
    one. *)
Fixpoint pct_change_from (prev : float) (s : Series float) : Series float :=
  match s with
  | [] => []
  | (t, x) :: s' => (t, (x / prev - 1)%float) :: pct_change_from x s'
  end.

Definition pct_change (s : Series float) : Series float := pct_change_from nan s.

(** [Rolling._prep_values]: an infinite value is handed to the kernel as a
    missing one. *)
Definition prep_value (x : float) : float := if is_infinity x then nan else x.

Definition float_of_nat (n : nat) : float :=
  of_uint63 (Uint63.of_Z (Z.of_nat n)).

(** The variables that pandas' [roll_var] carries from one window to the
    next. *)
Record VarState : Type := mkVarState {
  nobs : float;
  mean_x : float;
  ssqdm_x : float;
  compensation_add : float;
  compensation_remove : float;
  num_consecutive_same_value : nat;
  prev_value : float
}.

(** The variables as the first window finds them. *)
Definition var_reset (first : float) : VarState :=
  {| nobs := 0; mean_x := 0; ssqdm_x := 0;
     compensation_add := 0; compensation_remove := 0;
     num_consecutive_same_value := 0; prev_value := first |}.

(** [add_var]: a value enters the window (Welford's update of mean and sum
    of squared differences, with a compensation); a missing value is passed
    over. *)
Definition add_var (val : float) (st : VarState) : VarState :=
  if negb (val =? val)%float then st
  else
    let nobs' := (nobs st + 1)%float in
    let same := if (val =? prev_value st)%float
                then S (num_consecutive_same_value st) else 1%nat in
    let prev_mean := (mean_x st - compensation_add st)%float in
    let y := (val - compensation_add st)%float in
    let t := (y - mean_x st)%float in
    let c := (t + mean_x st - y)%float in
    let delta := t in
    let mean := if (nobs' =? 0)%float then 0%float
                else (mean_x st + delta / nobs')%float in
    {| nobs := nobs';
       mean_x := mean;
       ssqdm_x := (ssqdm_x st + (val - prev_mean) * (val - mean))%float;
       compensation_add := c;
       compensation_remove := compensation_remove st;
       num_consecutive_same_value := same;
       prev_value := val |}.

(** [remove_var]: a value leaves the window. *)
Definition remove_var (val : float) (st : VarState) : VarState :=
  if (val =? val)%float then
    let nobs' := (nobs st - 1)%float in
    if (nobs' =? 0)%float then
      {| nobs := nobs'; mean_x := 0; ssqdm_x := 0;
         compensation_add := compensation_add st;
         compensation_remove := compensation_remove st;
         num_consecutive_same_value := num_consecutive_same_value st;
         prev_value := prev_value st |}
    else
      let prev_mean := (mean_x st - compensation_remove st)%float in
      let y := (val - compensation_remove st)%float in
      let t := (y - mean_x st)%float in
      let c := (t + mean_x st - y)%float in
      let delta := t in
      let mean := (mean_x st - delta / nobs')%float in
      {| nobs := nobs';
         mean_x := mean;
         ssqdm_x := (ssqdm_x st - (val - prev_mean) * (val - mean))%float;
         compensation_add := compensation_add st;
         compensation_remove := c;
         num_consecutive_same_value := num_consecutive_same_value st;
         prev_value := prev_value st |}
  else st.

(** [calc_var]: the variance of the window from the variables; missing while
    the window holds fewer than [minp] values, and 0 when the values added
    last, as many as the window holds, were all the same. *)
Definition calc_var (minp ddof : nat) (st : VarState) : float :=
  if (float_of_nat minp <=? nobs st)%float && (float_of_nat ddof <? nobs st)%float
  then
    if (nobs st =? 1)%float
       || (nobs st <=? float_of_nat (num_consecutive_same_value st))%float
    then 0%float
    else (ssqdm_x st / (nobs st - float_of_nat ddof))%float
  else nan.

(** The bounds of the window that ends at row [i] (pandas'
    [FixedWindowIndexer]): [start[i]] is [i + 1 - window] cut off at 0,
    [end[i]] is [i + 1]. *)
Definition window_start (window i : nat) : nat := (S i - window)%nat.
Definition window_end (i : nat) : nat := S i.

(** [values[a:b]] *)
Definition slice (a b : nat) (l : list float) : list float :=
  firstn (b - a) (skipn a l).

(** The loop of [roll_var] from row [i] on, [n] rows being left: the first
    window is added up from nothing; every later one takes the variables of
    the window before it, removes the values that left and adds those that
    came in. *)
Fixpoint roll_var_loop (values : list float) (window minp ddof : nat)
    (n i : nat) (st : VarState) : list float :=
  match n with
  | O => []
  | S n' =>
      let s := window_start window i in
      let e := window_end i in
      let anew :=
        fold_left (fun st v => add_var v st) (slice s e values)
                  (var_reset (nth s values nan)) in
      let st' :=
        match i with
        | O => anew
        | S j =>
            if (window_end j <=? s)%nat then anew
            else
              fold_left (fun st v => add_var v st) (slice (window_end j) e values)
                (fold_left (fun st v => remove_var v st)
                   (slice (window_start window j) s values) st)
        end in
      calc_var minp ddof st' :: roll_var_loop values window minp ddof n' (S i) st'
  end.

Definition roll_var (values : list float) (window minp ddof : nat) : list float :=
  roll_var_loop values window (Nat.max minp 1) ddof (List.length values) 0
                (var_reset nan).

(** pandas' [zsqrt]: the square root, and 0 for what is below zero. *)
Definition zsqrt (x : float) : float := if (x <? 0)%float then 0%float else sqrt x.

(** [Series.rolling(window).std()]: the square root of the rolling variance
    with one degree of freedom taken off; [min_periods] is the window
    size. *)
Definition rolling_std (window : nat) (s : Series float) : Series float :=
  map (fun '((t, _), x) => (t, zsqrt x))
      (combine s (roll_var (map prep_value (values s)) window window 1)).

(** Lines 156-157. *)
Definition pct_change_of (equity_curve : Series float) : Series float :=
  fillna0 (pct_change equity_curve).

Definition vol_rolling_of (pct : Series float) : Series float :=
  rolling_std 30 pct.

(** *** Entries, exits and the trade log *)

(** [a | b] on two columns of one table. *)
Definition series_or (a b : Series bool) : Series bool :=
  map (fun '((t, x), (_, y)) => (t, x || y)) (combine a b).

(** The rows of [l] at the positions where [mask] is true. *)
Fixpoint select (l : list TimelineRow) (mask : list bool) : list TimelineRow :=
  match l, mask with
  | r :: l', b :: mask' => if b then r :: select l' mask' else select l' mask'
  | _, _ => []
  end.

(** [df[mask]] *)
Definition boolean_index (df : TimelineFrame) (mask : Series bool) : TimelineFrame :=
  {| t_columns := t_columns df; t_rows := select (t_rows df) (values mask) |}.

Definition empty (df : TimelineFrame) : bool :=
  match t_rows df with [] => true | _ => false end.

Record TradesChart : Type := mkTradesChart {
  tc_equity : Series float;
  tc_entries : option (Series float);
  tc_exits : option (Series float)
}.

(** Lines 219-254: the chart of entry and exit markers, drawn when the period
    has a flagged row. *)
Definition trades_chart (timeline_df : TimelineFrame) (equity_curve : Series float)
    : result (option TradesChart) :=
  is_entry_col <- getitem timeline_df "is_entry" is_entry ;;
  is_exit_col <- getitem timeline_df "is_exit" is_exit ;;
  let entries_exits := boolean_index timeline_df (series_or is_entry_col is_exit_col) in
  if empty entries_exits then Ok None
  else
    m_entry <- getitem entries_exits "is_entry" is_entry ;;
    let entries := boolean_index entries_exits m_entry in
    m_exit <- getitem entries_exits "is_exit" is_exit ;;
    let exits := boolean_index entries_exits m_exit in
    en <- (if empty entries then Ok None
           else s <- getitem entries "equity" equity ;; Ok (Some s)) ;;
    ex <- (if empty exits then Ok None
           else s <- getitem exits "equity" equity ;; Ok (Some s)) ;;
    Ok (Some {| tc_equity := equity_curve; tc_entries := en; tc_exits := ex |}).

(** [timeline_df[timeline_df["is_exit"] | timeline_df["is_entry"]]] *)
Definition trade_log_of (timeline_df : TimelineFrame) : result TimelineFrame :=
  is_exit_col <- getitem timeline_df "is_exit" is_exit ;;
  is_entry_col <- getitem timeline_df "is_entry" is_entry ;;
  Ok (boolean_index timeline_df (series_or is_exit_col is_entry_col)).

Definition display_cols : list string :=
  ["signal"; "price"; "qty"; "pnl"; "equity"; "volume_usd"; "is_entry"; "is_exit"].

Definition available_cols (trade_log : TimelineFrame) : list string :=
  filter (has_column (t_columns trade_log)) display_cols.

(** [trade_log[available_cols]]: every name of the list is a column. *)
Definition project (df : TimelineFrame) (cols : list string) : result TimelineFrame :=
  _ <- mapM (require (t_columns df)) cols ;;
  Ok {| t_columns := cols; t_rows := t_rows df |}.

(** Lines 261-286: the table shown for the trade log; [None] stands for the
    note that the period has no trades. *)
Definition trade_log_table_of (trade_log : TimelineFrame) : result (option TimelineFrame) :=
  if empty trade_log then Ok None
  else shown <- project trade_log (available_cols trade_log) ;; Ok (Some shown).

(** *** The comparison across periods *)

Record ComparisonRow : Type := mkComparisonRow {
  c_period : string;
  c_return : Formatted;
  c_sharpe : Formatted;
  c_max_dd : Formatted;
  c_win_rate : Formatted;
  c_trades_year : Formatted
}.

(** The body of the loop over [summary_df.iterrows()]. *)
Definition comparison_row (summary_df : SummaryFrame) (row : SummaryRow)
    : result ComparisonRow :=
  p <- row_get summary_df row "period" period ;;
  name <- dict_get period_names p ;;
  v1 <- row_get summary_df row "total_return_pct" total_return_pct ;;
  v2 <- row_get summary_df row "sharpe_ratio" sharpe_ratio ;;
  v3 <- row_get summary_df row "max_drawdown_pct" max_drawdown_pct ;;
  v4 <- row_get summary_df row "win_rate_pct" win_rate_pct ;;
  v5 <- row_get summary_df row "trades_per_year" trades_per_year ;;
  Ok {| c_period := name;
        c_return := (".2f", Float v1);
        c_sharpe := (".3f", Float v2);
        c_max_dd := (".2f", Float v3);
        c_win_rate := (".1f", Float v4);
        c_trades_year := (".0f", Float v5) |}.

Definition comparison_data (summary_df : SummaryFrame) : result (list ComparisonRow) :=
  mapM (comparison_row summary_df) (s_rows summary_df).

(** *** The whole pass *)

(** What one pass shows, in the order of the page: the series and tables
    behind the charts and tables of the script (the volatility chart plots its
    two series times 100).  The count of the trade log's signal values, shown
    under the trade log, is left out: it reads the signal column only, which
    the pass has read before, and raises nothing. *)
Record Dashboard : Type := mkDashboard {
  d_period_summary : SummaryRow;
  d_header : Header;
  d_metrics : list (string * Formatted);
  d_equity : Series float;
  d_cum_pnl : Series float;
  d_daily_volume : list (Z * float);
  d_pct_change : Series float;
  d_vol_rolling : Series float;
  d_signals : Series float * Series float;
  d_trades_chart : option TradesChart;
  d_trade_log : TimelineFrame;
  d_trade_log_table : option TimelineFrame;
  d_comparison : list ComparisonRow
}.

Definition render (fs : FileSystem) (sel : Selection) : result Dashboard :=
  ' (summary_df, timelines) <- load_backtest_data fs ;;
  selected_period <- dict_get period_options (selected_period_name sel) ;;
  timeline_df <- dict_get timelines selected_period ;;
  period_summary <- select_period summary_df selected_period ;;
  capital <- row_get summary_df period_summary "initial_capital" initial_capital ;;
  equity_col <- getitem timeline_df "equity" equity ;;
  let equity_curve := ffill equity_col in
  let cum_pnl := cum_pnl_of equity_curve capital in
  header <- summary_header summary_df period_summary capital ;;
  metrics <- metrics_data summary_df period_summary ;;
  daily_volume <- daily_volume_of timeline_df ;;
  let pct := pct_change_of equity_curve in
  let vol_rolling := vol_rolling_of pct in
  raw_equity <- getitem timeline_df "equity" equity ;;
  signal_col <- getitem timeline_df "signal" signal ;;
  let signals := fillna0 signal_col in
  chart <- trades_chart timeline_df equity_curve ;;
  trade_log <- trade_log_of timeline_df ;;
  table <- trade_log_table_of trade_log ;;
  comparison <- comparison_data summary_df ;;
  Ok {| d_period_summary := period_summary;
        d_header := header;
        d_metrics := metrics;
        d_equity := equity_curve;
        d_cum_pnl := cum_pnl;
        d_daily_volume := daily_volume;
        d_pct_change := pct;
        d_vol_rolling := vol_rolling;
        d_signals := (raw_equity, signals);
        d_trades_chart := chart;
        d_trade_log := trade_log;
        d_trade_log_table := table;
        d_comparison := comparison |}.

Arguments timeline_path : simpl never.
Arguments summary_path : simpl never.

(** ** The vocabulary of the statements *)

(** *** The fixed schema *)

(** The columns of a timeline file. *)
Definition timeline_schema : list string :=
  ["equity"; "volume_usd"; "signal"; "price"; "qty"; "pnl"; "is_entry"; "is_exit"].

(** The columns of the performance summary. *)
Definition summary_schema : list string :=
  ["period"; "start_date"; "end_date"; "rows"; "initial_capital"; "net_pnl";
   "total_return_pct"; "sharpe_ratio"; "max_drawdown_pct"; "win_rate_pct";
   "trades_per_year"; "avg_hold_hours"; "total_volume_usd"; "avg_daily_volume";
   "avg_hourly_volume"; "actual_trades"; "signal_flips"].

(** *** The loader *)

(** The rows from the first one with positive equity on. *)
Fixpoint from_first_positive (l : list TimelineRow) : list TimelineRow :=
  match l with
  | [] => []
  | r :: l' => if positive (equity r) then l else from_first_positive l'
  end.

(** The timeline of a period after the warm-up trim. *)
Definition trimmed (df : TimelineFrame) : TimelineFrame :=
  {| t_columns := t_columns df;
     t_rows := if existsb (fun r => positive (equity r)) (t_rows df)
               then from_first_positive (t_rows df)
               else t_rows df |}.

(** The leading rows whose equity is zero. *)
Fixpoint leading_zero_rows (l : list TimelineRow) : list TimelineRow :=
  match l with
  | [] => []
  | r :: l' => if (equity r =? 0)%float then r :: leading_zero_rows l' else []
  end.

(** What the trim needs of a timeline. *)
Definition timeline_well_formed (df : TimelineFrame) : Prop :=
  has_column (t_columns df) "equity" = true /\
  t_rows df <> [] /\
  NoDup (map time (t_rows df)).

(** What the loader reads of the summary. *)
Definition summary_loadable (s : SummaryFrame) : Prop :=
  has_column (s_columns s) "start_date" = true /\
  has_column (s_columns s) "end_date" = true.

(** Every expected file that exists has the shape the loader relies on. *)
Definition present_files_well_formed (fs : FileSystem) : Prop :=
  (is_file fs summary_path = true -> summary_loadable (summary_at fs summary_path)) /\
  (forall p, In p periods -> is_file fs (timeline_path p) = true ->
             timeline_well_formed (timeline_at fs (timeline_path p))).

(** The first expected file, in reading order, that does not exist. *)
Definition first_missing (fs : FileSystem) : option string :=
  find (fun path => negb (is_file fs path)) expected_files.

(** *** The rendering pass *)

(** The period identifier behind an entry of the selector. *)
Definition period_id (sel : Selection) : string :=
  match sel with
  | Last_Month => "last_month"
  | Full_3_Months => "full_3mo"
  | Prior_2_Months => "prior_2mo"
  end.

(** The test of [summary_df["period"] == selected_period]. *)
Definition matches (selected_period : string) (r : SummaryRow) : bool :=
  String.eqb (period r) selected_period.

(** The keys of [period_names]. *)
Definition known_period (p : string) : bool :=
  existsb (String.eqb p) periods.

(** The timeline the pass works on: the selected period's file, trimmed. *)
Definition selected_timeline (fs : FileSystem) (sel : Selection) : TimelineFrame :=
  trimmed (timeline_at fs (timeline_path (period_id sel))).

(** The columns of the selected timeline that the pass reads besides equity. *)
Definition selected_timeline_columns : list string :=
  ["volume_usd"; "signal"; "is_entry"; "is_exit"].

(** Inputs on which the pass runs to its end. *)
Definition renderable (fs : FileSystem) (sel : Selection) : Prop :=
  (forall path, In path expected_files -> is_file fs path = true) /\
  (forall p, In p periods -> timeline_well_formed (timeline_at fs (timeline_path p))) /\
  forallb (has_column (s_columns (summary_at fs summary_path))) summary_schema = true /\
  forallb (has_column (t_columns (timeline_at fs (timeline_path (period_id sel)))))
          selected_timeline_columns = true /\
  forallb (fun r => known_period (period r)) (s_rows (summary_at fs summary_path)) = true /\
  existsb (matches (period_id sel)) (s_rows (summary_at fs summary_path)) = true.

(** A column the pass reads without asking first is absent: one of the
    seventeen columns of the summary, the equity column of one of the three
    timelines, or one of the four further columns read from the timeline of
    the selected period. *)
Definition required_column_missing (fs : FileSystem) (sel : Selection) : Prop :=
  (exists c, In c summary_schema /\
             has_column (s_columns (summary_at fs summary_path)) c = false) \/
  (exists p, In p periods /\
             has_column (t_columns (timeline_at fs (timeline_path p))) "equity" = false) \/
  (exists c, In c selected_timeline_columns /\
             has_column (t_columns (timeline_at fs (timeline_path (period_id sel)))) c
             = false).

(** The metrics table of a row of the summary. *)
Definition metrics_of (r : SummaryRow) : list (string * Formatted) :=
  [("Net PnL (USD)", (".2f", Float (net_pnl r)));
   ("Total Return (%)", (".2f", Float (total_return_pct r)));
   ("Sharpe Ratio", (".3f", Float (sharpe_ratio r)));
   ("Max Drawdown (%)", (".2f", Float (max_drawdown_pct r)));
   ("Win Rate (%)", (".1f", Float (win_rate_pct r)));
   ("Trades Per Year", (".0f", Float (trades_per_year r)));
   ("Avg Hold Time (hrs)", (".2f", Float (avg_hold_hours r)));
   ("Total Volume (USD)", (",.0f", Float (total_volume_usd r)));
   ("Daily Volume (USD)", (",.0f", Float (avg_daily_volume r)));
   ("Hourly Volume (USD)", (",.0f", Float (avg_hourly_volume r)));
   ("Actual Trades", (",", Int (actual_trades r)));
   ("Signal Flips", (",", Int (signal_flips r)))].

(** A row with its entry flag or its exit flag set. *)
Definition flagged (r : TimelineRow) : bool := is_entry r || is_exit r.

(** The comparison row of a row of the summary, under a display name. *)
Definition comparison_of (name : string) (r : SummaryRow) : ComparisonRow :=
  {| c_period := name;
     c_return := (".2f", Float (total_return_pct r));
     c_sharpe := (".3f", Float (sharpe_ratio r));
     c_max_dd := (".2f", Float (max_drawdown_pct r));
     c_win_rate := (".1f", Float (win_rate_pct r));
     c_trades_year := (".0f", Float (trades_per_year r)) |}.

(** *** Daily volume *)

(** The sum of the values [vs] on top of the sum [total] that carries the
    compensation [c]: a missing value adds nothing; the others are added one
    after the other, each corrected by the rounding error of the addition
    before it. *)
Fixpoint compensated_sum (total c : float) (vs : list float) : float :=
  match vs with
  | [] => total
  | v :: vs' =>
      if is_nan v then compensated_sum total c vs'
      else
        let total' := (total + (v - c))%float in
        let c' := (total' - total - (v - c))%float in
        compensated_sum total' (if is_nan c' then 0%float else c') vs'
  end.

(** The sum of a day: the compensated sum of the volumes of the rows of that
    day, in row order, from zero. *)
Definition volume_on (l : list TimelineRow) (day : Z) : float :=
  compensated_sum 0 0
    (map volume_usd (filter (fun r => (date (time r) =? day)%Z) l)).

(** The entry of a day, if the day is listed. *)
Fixpoint lookup {A : Type} (day : Z) (acc : list (Z * A)) : option A :=
  match acc with
  | [] => None
  | (d, s) :: acc' => if (d =? day)%Z then Some s else lookup day acc'
  end.

Definition or_start (o : option GroupSum) : GroupSum :=
  match o with Some s => s | None => group_start end.

(** The days of a list of entries go strictly up. *)
Definition increasing {A : Type} (acc : list (Z * A)) : Prop :=
  StronglySorted Z.lt (map fst acc).

(** *** Volatility *)

(** The variables of the rolling variance at row [t] of the values [xs], for
    a window of [window] rows: at the first row the first value is added to
    nothing; at every later row the value that leaves the window, if one
    does, is removed and the value of the row is added. *)
Fixpoint running_var (window : nat) (xs : list float) (t : nat) : VarState :=
  match t with
  | O => add_var (nth 0 xs nan) (var_reset (nth 0 xs nan))
  | S t' =>
      add_var (nth t xs nan)
        (if (window <=? t)%nat
         then remove_var (nth (t - window) xs nan) (running_var window xs t')
         else running_var window xs t')
  end.

(** The values of the [n] rows that end at row [t]. *)
Definition window_at (n : nat) (xs : list float) (t : nat) : list float :=
  slice (S t - n) (S t) xs.

(** How many values of a list are not missing. *)
Definition present (l : list float) : nat :=
  List.length (filter (fun x => (x =? x)%float) l).

(** How many values of a list are finite: neither missing nor infinite. *)
Definition finite_count (l : list float) : nat :=
  List.length (filter is_finite l).

(** ** Sample data *)

(** One minute, in nanoseconds. *)
Definition minute : Z := 60 * 1000000000.

(** A one-minute bar. *)
Definition bar (t : Timestamp) (e v s : float) (entry exit : bool) : TimelineRow :=
  {| time := t; equity := e; volume_usd := v; signal := s;
     price := 100; qty := 0.25; pnl := 0; is_entry := entry; is_exit := exit |}.

Arguments bar t%_Z (e v s)%_float entry exit.

(** Two warm-up bars, an entry, and an exit on the next day. *)
Definition sample_timeline : TimelineFrame :=
  {| t_columns := timeline_schema;
     t_rows := [ bar 0 0 0 0 false false;
                 bar minute 0 0 0 false false;
                 bar (2 * minute) 1000 3 1 true false;
                 bar (3 * minute) 1001 0 1 false false;
                 bar (nanoseconds_per_day + minute) 1010 3.5 0 false true ] |}.

(** A period in which the account never held anything. *)
Definition flat_timeline : TimelineFrame :=
  {| t_columns := timeline_schema;
     t_rows := [ bar 0 0 0 0 false false; bar minute 0 0 0 false false ] |}.

(** A header and no rows. *)
Definition header_only_timeline : TimelineFrame :=
  {| t_columns := timeline_schema; t_rows := [] |}.

(** A row of the summary for period [p]. *)
Definition summary_row (p : string) (capital ret : float) : SummaryRow :=
  {| period := p; start_date := 0; end_date := 2 * nanoseconds_per_day; rows := 5%Z;
     initial_capital := capital; net_pnl := 10; total_return_pct := ret;
     sharpe_ratio := 1.5; max_drawdown_pct := 2; win_rate_pct := 50;
     trades_per_year := 120; avg_hold_hours := 4; total_volume_usd := 6.5;
     avg_daily_volume := 3.25; avg_hourly_volume := 0.5;
     actual_trades := 1%Z; signal_flips := 2%Z |}.

Arguments summary_row p%_string (capital ret)%_float.

(** One row per period. *)
Definition sample_summary : SummaryFrame :=
  {| s_columns := summary_schema;
     s_rows := [ summary_row "last_month" 1000 1;
                 summary_row "full_3mo" 1000 3;
                 summary_row "prior_2mo" 1000 2 ] |}.

(** A results directory holding the four files. *)
Definition sample_fs : FileSystem :=
  {| is_file := fun path => existsb (String.eqb path) expected_files;
     summary_at := fun _ => sample_summary;
     timeline_at := fun _ => sample_timeline |}.

(** The sample directory without [timeline_full_3mo.csv]. *)
Definition sample_fs_without_full_3mo : FileSystem :=
  {| is_file := fun path => is_file sample_fs path &&
                            negb (String.eqb path (timeline_path "full_3mo"));
     summary_at := summary_at sample_fs;
     timeline_at := timeline_at sample_fs |}.

(** The sample directory with a last-month timeline that has no rows. *)
Definition sample_fs_header_only : FileSystem :=
  {| is_file := is_file sample_fs;
     summary_at := summary_at sample_fs;
     timeline_at := fun path =>
       if String.eqb path (timeline_path "last_month")
       then header_only_timeline else sample_timeline |}.

(** The sample directory without [timeline_full_3mo.csv] and with a summary
    that has no start_date column. *)
Definition sample_fs_undated : FileSystem :=
  {| is_file := is_file sample_fs_without_full_3mo;
     summary_at := fun _ =>
       {| s_columns := ["period"; "end_date"; "rows"; "initial_capital"];
          s_rows := s_rows sample_summary |};
     timeline_at := timeline_at sample_fs |}.

(** The sample directory with a summary that has no row for last month. *)
Definition sample_fs_without_last_month : FileSystem :=
  {| is_file := is_file sample_fs;
     summary_at := fun _ =>
       {| s_columns := summary_schema;
          s_rows := [ summary_row "full_3mo" 1000 3; summary_row "prior_2mo" 1000 2 ] |};
     timeline_at := timeline_at sample_fs |}.

(** The sample directory with a summary that lists last month twice. *)
Definition sample_fs_repeated_period : FileSystem :=
  {| is_file := is_file sample_fs;
     summary_at := fun _ =>
       {| s_columns := summary_schema;
          s_rows := [ summary_row "last_month" 1000 1;
                      summary_row "last_month" 1000 5;
                      summary_row "full_3mo" 1000 3;
                      summary_row "prior_2mo" 1000 2 ] |};
     timeline_at := timeline_at sample_fs |}.

(** The sample directory with timelines that have no signal column. *)
Definition sample_fs_without_signal : FileSystem :=
  {| is_file := is_file sample_fs;
     summary_at := summary_at sample_fs;
     timeline_at := fun _ =>
       {| t_columns := ["equity"; "volume_usd"; "price"; "qty"; "pnl"; "is_entry"; "is_exit"];
          t_rows := t_rows sample_timeline |} |}.

(** The sample directory with timelines that have no price column. *)
Definition sample_fs_without_price : FileSystem :=
  {| is_file := is_file sample_fs;
     summary_at := summary_at sample_fs;
     timeline_at := fun _ =>
       {| t_columns := ["equity"; "volume_usd"; "signal"; "qty"; "pnl"; "is_entry"; "is_exit"];
          t_rows := t_rows sample_timeline |} |}.


(** ** Vocabulary and samples of the further properties *)

(** The markers of a chart trace: the raw equity of the rows, and no trace
    when there is no row. *)
Definition markers (l : list TimelineRow) : option (Series float) :=
  match l with
  | [] => None
  | _ => Some (map (fun r => (time r, equity r)) l)
  end.

(** A row of the summary whose period is no key of [period_names]. *)
Definition unknown_period (r : SummaryRow) : bool := negb (known_period (period r)).

(** Inputs on which the pass runs up to the comparison table: [renderable]
    without the condition on the period identifiers of the summary. *)
Definition renders_up_to_comparison (fs : FileSystem) (sel : Selection) : Prop :=
  (forall path, In path expected_files -> is_file fs path = true) /\
  (forall p, In p periods -> timeline_well_formed (timeline_at fs (timeline_path p))) /\
  forallb (has_column (s_columns (summary_at fs summary_path))) summary_schema = true /\
  forallb (has_column (t_columns (timeline_at fs (timeline_path (period_id sel)))))
          selected_timeline_columns = true /\
  existsb (matches (period_id sel)) (s_rows (summary_at fs summary_path)) = true.

(** The sample directory with a summary that has a fourth row, for a period
    the script does not know. *)
Definition sample_fs_unknown_period : FileSystem :=
  {| is_file := is_file sample_fs;
     summary_at := fun _ =>
       {| s_columns := summary_schema;
          s_rows := s_rows sample_summary ++ [ summary_row "ytd" 1000 7 ] |};
     timeline_at := timeline_at sample_fs |}.

(** The sample directory with timelines whose first day has no volume on
    record. *)
Definition sample_fs_missing_volume : FileSystem :=
  {| is_file := is_file sample_fs;
     summary_at := summary_at sample_fs;
     timeline_at := fun _ =>
       {| t_columns := timeline_schema;
          t_rows := [ bar 0 1000 nan 1 true false;
                      bar minute 1001 nan 1 false false;
                      bar (nanoseconds_per_day + minute) 1010 3.5 0 false true ] |} |}.

(** A timeline in which the timestamp of the first row with positive equity
    is also that of the row before it. *)
Definition repeated_label_timeline : TimelineFrame :=
  {| t_columns := timeline_schema;
     t_rows := [ bar 0 0 0 0 false false;
                 bar minute 0 0 0 false false;
                 bar minute 1000 3 1 true false ] |}.

(** The rows of a timeline are in the order of their timestamps, which may
    repeat. *)
Definition chronological (l : list TimelineRow) : Prop :=
  StronglySorted (fun a b => (time a <= time b)%Z) l.

(** A period of thirty-five one-minute bars of one day, each with a volume of
    one tenth, and an equity that moves by a few units around 1000. *)
Definition long_equity (k : nat) : float :=
  (1000 + float_of_nat ((k * k * 7 + k * 3) mod 11))%float.

Definition tenth : float := 0x1.999999999999ap-4%float.

Definition long_timeline : TimelineFrame :=
  {| t_columns := timeline_schema;
     t_rows := map (fun k => bar (Z.of_nat k * minute) (long_equity k) tenth 1
                                 (k =? 0)%nat (k =? 34)%nat)
                   (seq 0 35) |}.

Definition sample_fs_long : FileSystem :=
  {| is_file := is_file sample_fs;
     summary_at := summary_at sample_fs;
     timeline_at := fun _ => long_timeline |}.



(** A series with gaps. *)
Definition gappy_series : Series float :=
  [(0%Z, nan); (minute, 5%float); (2 * minute, nan)%Z; (3 * minute, nan)%Z;
   (4 * minute, 7%float)%Z].

(** * Proofs *)

(** ** Basic facts *)

Lemma require_ok (columns : list string) (name : string) :
  has_column columns name = true -> require columns name = Ok tt.
Proof. unfold require. intros ->. reflexivity. Qed.

Lemma require_inv (columns : list string) (name : string) (u : unit) :
  require columns name = Ok u -> has_column columns name = true.
Proof. unfold require. destruct (has_column columns name); [reflexivity | discriminate]. Qed.

Lemma bind_ok_inv {A B : Type} (c : result A) (k : A -> result B) (b : B) :
  bind c k = Ok b -> exists a, c = Ok a /\ k a = Ok b.
Proof. destruct c as [a | e]; simpl; [eauto | discriminate]. Qed.

Lemma getitem_ok {A : Type} (df : TimelineFrame) (name : string) (field : TimelineRow -> A) :
  has_column (t_columns df) name = true ->
  getitem df name field = Ok (map (fun r => (time r, field r)) (t_rows df)).
Proof. intros H. unfold getitem. rewrite (require_ok _ _ H). reflexivity. Qed.

Lemma getitem_inv {A : Type} (df : TimelineFrame) (name : string)
    (field : TimelineRow -> A) (s : Series A) :
  getitem df name field = Ok s ->
  has_column (t_columns df) name = true /\
  s = map (fun r => (time r, field r)) (t_rows df).
Proof.
  unfold getitem. intros H. apply bind_ok_inv in H as (u & Hreq & Hs).
  apply require_inv in Hreq. split; [assumption | congruence].
Qed.

(** Undo one [bind] in a hypothesis that says the whole computation returned. *)
Ltac bind_inv H :=
  let a := fresh "a" in
  let Ha := fresh "Ha" in
  apply bind_ok_inv in H as (a & Ha & H).

(** ** The trim, step by step *)

Lemma positive_nonzero (e : float) :
  positive e = true -> (e =? 0)%float = false.
Proof.
  unfold positive. rewrite ltb_spec, eqb_spec.
  destruct (Prim2SF e) as [s | s | | s m x]; try destruct s; cbn;
    try discriminate; reflexivity.
Qed.

Lemma first_true_positive (l : list TimelineRow) :
  first_true (map (fun '(t, e) => (t, positive e))
                  (map (fun r => (time r, equity r)) l))
  = match from_first_positive l with
    | [] => None
    | r :: _ => Some (time r)
    end.
Proof.
  induction l as [ | a l IH]; simpl; [reflexivity | ].
  destruct (positive (equity a)); [reflexivity | exact IH].
Qed.

Lemma from_first_positive_split (l : list TimelineRow) :
  exists removed,
    l = removed ++ from_first_positive l /\
    forall r, In r removed -> positive (equity r) = false.
Proof.
  induction l as [ | a l (removed & Hl & Hrem)]; simpl.
  - exists []. split; [reflexivity | intros r []].
  - destruct (positive (equity a)) eqn:Ha.
    + exists []. split; [reflexivity | intros r []].
    + exists (a :: removed). split.
      * simpl. now rewrite <- Hl.
      * intros r [<- | Hin]; auto.
Qed.

Lemma from_first_positive_head (l : list TimelineRow) (r : TimelineRow)
    (rest : list TimelineRow) :
  from_first_positive l = r :: rest -> positive (equity r) = true.
Proof.
  induction l as [ | a l IH]; simpl; [discriminate | ].
  destruct (positive (equity a)) eqn:Ha; [ | exact IH].
  intros [= <- _]. exact Ha.
Qed.

Lemma from_first_positive_nil (l : list TimelineRow) :
  from_first_positive l = [] <-> existsb (fun r => positive (equity r)) l = false.
Proof.
  induction l as [ | a l IH]; simpl; [tauto | ].
  destruct (positive (equity a)); simpl; [ | exact IH].
  split; discriminate.
Qed.

Lemma from_label_suffix (label : Timestamp) (l : list TimelineRow) :
  exists removed, l = removed ++ from_label label l.
Proof.
  induction l as [ | a l (removed & Hl)]; simpl.
  - now exists [].
  - destruct (time a =? label)%Z.
    + now exists [].
    + exists (a :: removed). simpl. now rewrite <- Hl.
Qed.

Lemma from_label_unique (pre post : list TimelineRow) (r : TimelineRow) :
  NoDup (map time (pre ++ r :: post)) ->
  from_label (time r) (pre ++ r :: post) = r :: post.
Proof.
  induction pre as [ | a pre IH]; simpl; intros Hnd.
  - now rewrite Z.eqb_refl.
  - inversion Hnd as [ | x xs Hnotin Hnd']; subst.
    destruct (Z.eqb_spec (time a) (time r)) as [Heq | _]; [ | now apply IH].
    exfalso. apply Hnotin. rewrite map_app. apply in_or_app. right. simpl. now left.
Qed.

Lemma after_run_incl (label : Timestamp) (l : list TimelineRow) (x : TimelineRow) :
  In x (after_run label l) -> In x l.
Proof.
  induction l as [ | a l IH]; simpl; [tauto | ].
  destruct (time a =? label)%Z; simpl; auto.
Qed.

Lemma after_run_unique (r : TimelineRow) (post : list TimelineRow) :
  NoDup (map time (r :: post)) ->
  existsb (fun x => (time x =? time r)%Z) (after_run (time r) (r :: post)) = false.
Proof.
  simpl. intros Hnd. inversion Hnd as [ | x xs Hnotin _]; subst.
  rewrite Z.eqb_refl.
  destruct (existsb _ _) eqn:Hex; [ | reflexivity].
  apply existsb_exists in Hex as (x & Hin & Heq).
  apply after_run_incl in Hin. apply Z.eqb_eq in Heq.
  exfalso. apply Hnotin. rewrite <- Heq. now apply in_map.
Qed.

Lemma NoDup_app_r {A : Type} (l1 l2 : list A) : NoDup (l1 ++ l2) -> NoDup l2.
Proof.
  induction l1 as [ | a l1 IH]; simpl; [tauto | ].
  intros H. inversion H; subst. auto.
Qed.

(** The label the loader slices from: that of the first row with positive
    equity, and that of the first row when there is none. *)
Lemma idxmax_positive (r0 : TimelineRow) (l : list TimelineRow) :
  idxmax (map (fun '(t, e) => (t, positive e))
              (map (fun r => (time r, equity r)) (r0 :: l)))
  = Ok (match from_first_positive (r0 :: l) with
        | [] => time r0
        | r :: _ => time r
        end).
Proof.
  pose proof (first_true_positive (r0 :: l)) as H.
  unfold idxmax. cbn [map] in *. rewrite H.
  now destruct (from_first_positive (r0 :: l)).
Qed.

Lemma from_label_head (r0 : TimelineRow) (l : list TimelineRow) :
  from_label (time r0) (r0 :: l) = r0 :: l.
Proof. cbn [from_label]. now rewrite Z.eqb_refl. Qed.

(** On a well-formed timeline the trim returns, and returns [trimmed]. *)
Lemma trim_warmup_eq (df : TimelineFrame) :
  timeline_well_formed df -> trim_warmup df = Ok (trimmed df).
Proof.
  intros (Hcol & Hne & Hnd). unfold trim_warmup, trimmed.
  rewrite (getitem_ok _ _ _ Hcol). cbn [bind].
  destruct df as [cols l]. cbn [t_rows t_columns] in *.
  destruct l as [ | r0 l]; [congruence | ].
  rewrite idxmax_positive. cbn [bind]. unfold truthy, loc_from. cbn [t_rows t_columns].
  destruct (from_first_positive (r0 :: l)) as [ | r rest] eqn:Hffp.
  - (* no row has positive equity: the label is that of the first row *)
    apply from_first_positive_nil in Hffp. rewrite Hffp.
    now rewrite from_label_head, (after_run_unique _ _ Hnd).
  - assert (Hex : existsb (fun r => positive (equity r)) (r0 :: l) = true).
    { destruct (existsb _ (r0 :: l)) eqn:E; [reflexivity | ].
      apply from_first_positive_nil in E. congruence. }
    rewrite Hex.
    destruct (from_first_positive_split (r0 :: l)) as (removed & Hsplit & _).
    rewrite Hffp in Hsplit.
    assert (Hfl : from_label (time r) (r0 :: l) = r :: rest).
    { rewrite Hsplit at 1. apply from_label_unique. now rewrite <- Hsplit. }
    rewrite Hfl, after_run_unique; [reflexivity | ].
    rewrite Hsplit, map_app in Hnd. now apply NoDup_app_r in Hnd.
Qed.

Lemma trim_warmup_suffix (df df' : TimelineFrame) :
  trim_warmup df = Ok df' ->
  t_columns df' = t_columns df /\ exists removed, t_rows df = removed ++ t_rows df'.
Proof.
  unfold trim_warmup. intros H.
  bind_inv H. bind_inv H. unfold truthy, loc_from in H.
  destruct (existsb _ _); [discriminate | ].
  injection H as <-. simpl. split; [reflexivity | apply from_label_suffix].
Qed.

Lemma leading_zero_rows_prefix (l removed kept : list TimelineRow) (r : TimelineRow) :
  l = removed ++ r :: kept ->
  (forall x, In x removed -> positive (equity x) = false) ->
  (equity r =? 0)%float = false ->
  exists more, removed = leading_zero_rows l ++ more.
Proof.
  revert l. induction removed as [ | a removed IH]; intros l -> Hrem Hr; simpl.
  - rewrite Hr. now exists [].
  - destruct (equity a =? 0)%float.
    + destruct (IH _ eq_refl) as (more & Hmore); [intros; apply Hrem; now right | assumption | ].
      exists more. simpl. now rewrite <- Hmore.
    + now exists (a :: removed).
Qed.

(** ** The loader as a whole *)

Lemma load_timelines_inv (fs : FileSystem) (ps : list string)
    (timelines : list (string * TimelineFrame)) :
  load_timelines fs ps = Ok timelines ->
  map fst timelines = ps /\
  forall p df', In (p, df') timelines ->
    is_file fs (timeline_path p) = true /\
    trim_warmup (timeline_at fs (timeline_path p)) = Ok df'.
Proof.
  revert timelines. induction ps as [ | p ps IH]; simpl; intros timelines H.
  - injection H as <-. split; [reflexivity | intros ? ? []].
  - apply bind_ok_inv in H as (df & Hread & H).
    apply bind_ok_inv in H as (trimmed_df & Htrim & H).
    apply bind_ok_inv in H as (rest & Hrest & H).
    injection H as <-.
    unfold read_csv_timeline in Hread.
    destruct (is_file fs (timeline_path p)) eqn:Hfile; [ | discriminate].
    injection Hread as <-.
    destruct (IH _ Hrest) as (Hkeys & Hall). split.
    + simpl. now rewrite Hkeys.
    + intros q df' [[= <- <-] | Hin]; [now split | now apply Hall].
Qed.

Lemma load_timelines_spec (fs : FileSystem) (ps : list string) :
  (forall p, In p ps -> is_file fs (timeline_path p) = true ->
             timeline_well_formed (timeline_at fs (timeline_path p))) ->
  load_timelines fs ps =
  match find (fun p => negb (is_file fs (timeline_path p))) ps with
  | Some p => Raise (FileNotFoundError (timeline_path p))
  | None => Ok (map (fun p => (p, trimmed (timeline_at fs (timeline_path p)))) ps)
  end.
Proof.
  induction ps as [ | p ps IH]; simpl; intros Hwf; [reflexivity | ].
  unfold read_csv_timeline.
  destruct (is_file fs (timeline_path p)) eqn:Hfile; simpl; [ | reflexivity].
  rewrite trim_warmup_eq by (apply Hwf; [now left | assumption]). simpl.
  rewrite IH by (intros; apply Hwf; [now right | assumption]).
  now destruct (find _ ps).
Qed.

Lemma find_map {A B : Type} (f : B -> bool) (g : A -> B) (l : list A) :
  find f (map g l) = option_map g (find (fun a => f (g a)) l).
Proof.
  induction l as [ | a l IH]; simpl; [reflexivity | ].
  now destruct (f (g a)).
Qed.

Lemma load_backtest_data_spec (fs : FileSystem) :
  present_files_well_formed fs ->
  load_backtest_data fs =
  match first_missing fs with
  | Some path => Raise (FileNotFoundError path)
  | None =>
      Ok (summary_at fs summary_path,
          map (fun p => (p, trimmed (timeline_at fs (timeline_path p)))) periods)
  end.
Proof.
  intros (Hsum & Htl). unfold load_backtest_data, first_missing, expected_files.
  cbn [find]. unfold read_csv_summary.
  destruct (is_file fs summary_path) eqn:Hfile; cbn [negb bind]; [ | reflexivity].
  destruct (Hsum eq_refl) as (Hstart & Hend).
  rewrite (require_ok _ _ Hstart), (require_ok _ _ Hend). cbn [bind].
  rewrite (load_timelines_spec fs periods Htl), find_map.
  now destruct (find _ periods).
Qed.

Lemma load_backtest_data_inv (fs : FileSystem) (summary_df : SummaryFrame)
    (timelines : list (string * TimelineFrame)) :
  load_backtest_data fs = Ok (summary_df, timelines) ->
  summary_df = summary_at fs summary_path /\
  has_column (s_columns summary_df) "start_date" = true /\
  has_column (s_columns summary_df) "end_date" = true /\
  load_timelines fs periods = Ok timelines.
Proof.
  unfold load_backtest_data. intros H.
  apply bind_ok_inv in H as (s & Hread & H).
  apply bind_ok_inv in H as (u1 & Hstart & H).
  apply bind_ok_inv in H as (u2 & Hend & H).
  apply bind_ok_inv in H as (tl & Htl & H).
  injection H as Hs Ht. subst s tl.
  apply require_inv in Hstart, Hend.
  unfold read_csv_summary in Hread.
  destruct (is_file fs summary_path); [ | discriminate].
  injection Hread as Hread. now repeat split.
Qed.

Lemma first_missing_some (fs : FileSystem) :
  (exists path, In path expected_files /\ is_file fs path = false) ->
  exists path, first_missing fs = Some path /\
               In path expected_files /\ is_file fs path = false.
Proof.
  intros (path & Hin & Hfile). unfold first_missing.
  destruct (find _ expected_files) as [q | ] eqn:Hfind.
  - apply find_some in Hfind as (Hq & Hneg). exists q.
    repeat split; [assumption | ]. now apply negb_true_iff.
  - apply (find_none _ _ Hfind) in Hin. rewrite Hfile in Hin. discriminate.
Qed.

Lemma first_missing_none (fs : FileSystem) :
  (forall path, In path expected_files -> is_file fs path = true) ->
  first_missing fs = None.
Proof.
  intros Hall. unfold first_missing.
  destruct (find _ expected_files) as [q | ] eqn:Hfind; [ | reflexivity].
  apply find_some in Hfind as (Hq & Hneg). rewrite (Hall _ Hq) in Hneg. discriminate.
Qed.

Ltac solve_nodup := repeat constructor; cbv; intuition discriminate.

Lemma sample_timeline_well_formed : timeline_well_formed sample_timeline.
Proof. repeat split; [discriminate | solve_nodup]. Qed.

Lemma sample_fs_well_formed : present_files_well_formed sample_fs.
Proof.
  split.
  - intros _. split; reflexivity.
  - intros p _ _. exact sample_timeline_well_formed.
Qed.

Lemma sample_fs_complete :
  forall path, In path expected_files -> is_file sample_fs path = true.
Proof.
  intros path Hin. cbn [is_file sample_fs]. apply existsb_exists. exists path.
  split; [assumption | apply String.eqb_refl].
Qed.

(** ** The claims about the loader *)

(** C1, as the code has it: on a timeline with an equity column, at least one
    row and pairwise distinct timestamps the trim returns; it removes leading
    rows only, none of them with positive equity; if some row has positive
    equity, the result starts at the first such row, so its first row has
    non-zero equity and every leading zero-equity row is gone; if no row has
    positive equity the table comes back unchanged. *)
Theorem trim_warmup_first_positive (df : TimelineFrame) :
  timeline_well_formed df ->
  exists df' removed,
    trim_warmup df = Ok df' /\
    t_columns df' = t_columns df /\
    t_rows df = removed ++ t_rows df' /\
    (forall r, In r removed -> positive (equity r) = false) /\
    ((exists r, In r (t_rows df) /\ positive (equity r) = true) ->
       (exists r rest, t_rows df' = r :: rest /\
                       positive (equity r) = true /\
                       (equity r =? 0)%float = false) /\
       (exists more, removed = leading_zero_rows (t_rows df) ++ more)) /\
    ((forall r, In r (t_rows df) -> positive (equity r) = false) -> df' = df).
Proof.
  intros Hwf. rewrite (trim_warmup_eq _ Hwf).
  destruct df as [cols l]. unfold trimmed. cbn [t_rows t_columns].
  destruct (existsb (fun r => positive (equity r)) l) eqn:Hex.
  - destruct (from_first_positive_split l) as (removed & Hsplit & Hrem).
    destruct (from_first_positive l) as [ | r rest] eqn:Hffp.
    { apply from_first_positive_nil in Hffp. congruence. }
    pose proof (from_first_positive_head _ _ _ Hffp) as Hpos.
    pose proof (positive_nonzero _ Hpos) as Hnz.
    exists {| t_columns := cols; t_rows := r :: rest |}, removed.
    cbn [t_rows t_columns].
    split; [reflexivity | split; [reflexivity | split; [exact Hsplit | ]]].
    split; [exact Hrem | split].
    + intros _. split.
      * exists r, rest. now repeat split.
      * exact (leading_zero_rows_prefix _ _ _ _ Hsplit Hrem Hnz).
    + intros Hnone. apply existsb_exists in Hex as (x & Hin & Hx).
      rewrite (Hnone _ Hin) in Hx. discriminate.
  - assert (Hnone : forall r, In r l -> positive (equity r) = false).
    { intros r Hin. destruct (positive (equity r)) eqn:Hp; [ | reflexivity].
      assert (existsb (fun r => positive (equity r)) l = true)
        by (apply existsb_exists; eauto).
      congruence. }
    exists {| t_columns := cols; t_rows := l |}, [].
    cbn [t_rows t_columns app].
    split; [reflexivity | split; [reflexivity | split; [reflexivity | ]]].
    split; [intros r [] | split].
    + intros (r & Hin & Hpos). rewrite (Hnone _ Hin) in Hpos. discriminate.
    + reflexivity.
Qed.

Lemma trim_warmup_first_positive_sample :
  timeline_well_formed sample_timeline /\
  exists df' removed,
    trim_warmup sample_timeline = Ok df' /\
    t_columns df' = t_columns sample_timeline /\
    t_rows sample_timeline = removed ++ t_rows df' /\
    (forall r, In r removed -> positive (equity r) = false) /\
    ((exists r, In r (t_rows sample_timeline) /\ positive (equity r) = true) ->
       (exists r rest, t_rows df' = r :: rest /\
                       positive (equity r) = true /\
                       (equity r =? 0)%float = false) /\
       (exists more, removed = leading_zero_rows (t_rows sample_timeline) ++ more)) /\
    ((forall r, In r (t_rows sample_timeline) -> positive (equity r) = false) ->
       df' = sample_timeline).
Proof.
  split; [exact sample_timeline_well_formed | ].
  exact (trim_warmup_first_positive sample_timeline sample_timeline_well_formed).
Defined.

(** C1 fails as stated: every row of [flat_timeline] has zero equity, the
    trim returns the table as it is, and the first retained row has zero
    equity. *)
Lemma trim_warmup_keeps_flat_timeline :
  trim_warmup flat_timeline = Ok flat_timeline /\
  leading_zero_rows (t_rows flat_timeline) = t_rows flat_timeline /\
  ~ (forall df' r rest,
       trim_warmup flat_timeline = Ok df' ->
       t_rows df' = r :: rest -> (equity r =? 0)%float = false).
Proof.
  split; [reflexivity | split; [reflexivity | ]].
  intros H. specialize (H flat_timeline _ _ eq_refl eq_refl). discriminate H.
Qed.

(** C9: whatever the loader returns for a period is the table of that
    period's file with some leading rows removed: the same columns, and the
    file's rows are the removed rows followed by the returned rows, each as it
    was and in the same order; and the loader does return when the four files
    exist and are well-formed. *)
Theorem load_backtest_data_keeps_suffix (fs : FileSystem) :
  (forall summary_df timelines,
     load_backtest_data fs = Ok (summary_df, timelines) ->
     map fst timelines = periods /\
     forall p df', In (p, df') timelines ->
       t_columns df' = t_columns (timeline_at fs (timeline_path p)) /\
       exists removed,
         t_rows (timeline_at fs (timeline_path p)) = removed ++ t_rows df') /\
  (present_files_well_formed fs ->
   (forall path, In path expected_files -> is_file fs path = true) ->
   exists summary_df timelines, load_backtest_data fs = Ok (summary_df, timelines)).
Proof.
  split.
  - intros summary_df timelines H.
    apply load_backtest_data_inv in H as (_ & _ & _ & H).
    destruct (load_timelines_inv _ _ _ H) as (Hkeys & Hall).
    split; [assumption | ].
    intros p df' Hin. destruct (Hall _ _ Hin) as (_ & Htrim).
    now apply trim_warmup_suffix.
  - intros Hwf Hall. rewrite (load_backtest_data_spec fs Hwf).
    rewrite (first_missing_none fs Hall). eauto.
Qed.

Lemma load_backtest_data_keeps_suffix_sample :
  load_backtest_data sample_fs
  = Ok (sample_summary, map (fun p => (p, trimmed sample_timeline)) periods) /\
  map fst (map (fun p => (p, trimmed sample_timeline)) periods) = periods /\
  forall p df', In (p, df') (map (fun p => (p, trimmed sample_timeline)) periods) ->
    t_columns df' = t_columns (timeline_at sample_fs (timeline_path p)) /\
    exists removed,
      t_rows (timeline_at sample_fs (timeline_path p)) = removed ++ t_rows df'.
Proof.
  assert (H : load_backtest_data sample_fs
              = Ok (sample_summary, map (fun p => (p, trimmed sample_timeline)) periods))
    by (vm_compute; reflexivity).
  split; [exact H | ].
  exact (proj1 (load_backtest_data_keeps_suffix sample_fs) sample_summary _ H).
Defined.

(** C3, as the code has it: when every expected file that exists is
    well-formed (the summary has its two date columns; a timeline has an
    equity column, at least one row and distinct timestamps), the loader
    raises FileNotFoundError for an absent file as soon as one of the four is
    absent, and otherwise returns the summary table with, for each of the
    three periods in order, that period's timeline after the warm-up trim. *)
Theorem load_backtest_data_not_found_or_loaded (fs : FileSystem) :
  present_files_well_formed fs ->
  ((exists path, In path expected_files /\ is_file fs path = false) ->
   exists path, In path expected_files /\ is_file fs path = false /\
                load_backtest_data fs = Raise (FileNotFoundError path)) /\
  ((forall path, In path expected_files -> is_file fs path = true) ->
   load_backtest_data fs =
   Ok (summary_at fs summary_path,
       map (fun p => (p, trimmed (timeline_at fs (timeline_path p)))) periods)).
Proof.
  intros Hwf. pose proof (load_backtest_data_spec fs Hwf) as Hspec. split.
  - intros Hmiss. destruct (first_missing_some fs Hmiss) as (path & Hfirst & Hin & Hfile).
    exists path. rewrite Hfirst in Hspec. now repeat split.
  - intros Hall. now rewrite (first_missing_none fs Hall) in Hspec.
Qed.

Lemma load_backtest_data_not_found_or_loaded_sample :
  present_files_well_formed sample_fs /\
  present_files_well_formed sample_fs_without_full_3mo /\
  load_backtest_data sample_fs =
  Ok (sample_summary, map (fun p => (p, trimmed sample_timeline)) periods) /\
  exists path, In path expected_files /\
               is_file sample_fs_without_full_3mo path = false /\
               load_backtest_data sample_fs_without_full_3mo
               = Raise (FileNotFoundError path).
Proof.
  assert (Hwf : present_files_well_formed sample_fs_without_full_3mo).
  { split.
    - intros _. split; reflexivity.
    - intros p _ _. exact sample_timeline_well_formed. }
  split; [exact sample_fs_well_formed | split; [exact Hwf | split]].
  - apply (load_backtest_data_not_found_or_loaded sample_fs sample_fs_well_formed).
    exact sample_fs_complete.
  - apply (load_backtest_data_not_found_or_loaded sample_fs_without_full_3mo Hwf).
    exists (timeline_path "full_3mo"). split; [ | vm_compute; reflexivity].
    right. right. now left.
Defined.

(** C3 fails as stated.  In the first directory the four files exist, the
    last-month timeline has a header and no row, and the loader raises
    ValueError (the argmax of an empty column) instead of returning.  In the
    second [timeline_full_3mo.csv] is absent and the summary has no
    start_date column: the loader raises KeyError on the summary before it
    looks for any timeline, not a not-found error. *)
Lemma load_backtest_data_other_failures :
  ((forall path, In path expected_files -> is_file sample_fs_header_only path = true) /\
   t_rows (timeline_at sample_fs_header_only (timeline_path "last_month")) = [] /\
   load_backtest_data sample_fs_header_only = Raise ValueError) /\
  (In (timeline_path "full_3mo") expected_files /\
   is_file sample_fs_undated (timeline_path "full_3mo") = false /\
   load_backtest_data sample_fs_undated = Raise (KeyError "start_date")).
Proof.
  split.
  - split; [exact sample_fs_complete | split; vm_compute; reflexivity].
  - split; [right; right; now left | split; vm_compute; reflexivity].
Qed.

(** ** The rendering pass, step by step *)

Lemma period_options_get (sel : Selection) :
  dict_get period_options (selected_period_name sel) = Ok (period_id sel).
Proof. destruct sel; reflexivity. Qed.

Lemma period_id_In (sel : Selection) : In (period_id sel) periods.
Proof. destruct sel; simpl; tauto. Qed.

Lemma dict_get_In {V : Type} (d : list (string * V)) (k : string) (v : V) :
  dict_get d k = Ok v -> In (k, v) d.
Proof.
  induction d as [ | [k' v'] d IH]; simpl; [discriminate | ].
  destruct (String.eqb_spec k k') as [<- | _].
  - intros [= <-]. now left.
  - intros H. right. now apply IH.
Qed.

Lemma dict_get_map {V : Type} (f : string -> V) (keys : list string) (k : string) :
  In k keys -> dict_get (map (fun p => (p, f p)) keys) k = Ok (f k).
Proof.
  induction keys as [ | k' keys IH]; simpl; [tauto | ].
  destruct (String.eqb_spec k k') as [<- | Hne]; [reflexivity | ].
  intros [Heq | Hin]; [congruence | now apply IH].
Qed.

Lemma select_period_find (summary_df : SummaryFrame) (selected_period : string) :
  has_column (s_columns summary_df) "period" = true ->
  select_period summary_df selected_period =
  match find (matches selected_period) (s_rows summary_df) with
  | Some r => Ok r
  | None => Raise IndexError
  end.
Proof.
  intros Hcol. unfold select_period. rewrite (require_ok _ _ Hcol). cbn [bind].
  fold (matches selected_period).
  induction (s_rows summary_df) as [ | r l IH]; simpl; [reflexivity | ].
  destruct (matches selected_period r); [reflexivity | exact IH].
Qed.

Lemma select_period_inv (summary_df : SummaryFrame) (selected_period : string)
    (r : SummaryRow) :
  select_period summary_df selected_period = Ok r ->
  has_column (s_columns summary_df) "period" = true /\
  find (matches selected_period) (s_rows summary_df) = Some r.
Proof.
  intros H. assert (Hcol : has_column (s_columns summary_df) "period" = true).
  { unfold select_period in H. bind_inv H. now apply require_inv in Ha. }
  split; [assumption | ].
  rewrite (select_period_find _ _ Hcol) in H.
  destruct (find _ _); [congruence | discriminate].
Qed.

(** [find] returns the first element that passes the test. *)
Lemma find_first {A : Type} (f : A -> bool) (l : list A) (a : A) :
  find f l = Some a ->
  exists before after,
    l = before ++ a :: after /\ f a = true /\
    forall x, In x before -> f x = false.
Proof.
  induction l as [ | x l IH]; simpl; [discriminate | ].
  destruct (f x) eqn:Hx.
  - intros [= <-]. exists [], l. repeat split; [assumption | intros ? []].
  - intros H. destruct (IH H) as (before & after & -> & Ha & Hbefore).
    exists (x :: before), after. repeat split; [assumption | ].
    intros y [<- | Hy]; auto.
Qed.

Lemma find_existsb {A : Type} (f : A -> bool) (l : list A) :
  existsb f l = true -> exists a, find f l = Some a.
Proof.
  induction l as [ | x l IH]; simpl; [discriminate | ].
  destruct (f x); [eauto | exact IH].
Qed.

Lemma row_get_ok {A : Type} (summary_df : SummaryFrame) (row : SummaryRow)
    (name : string) (field : SummaryRow -> A) :
  has_column (s_columns summary_df) name = true ->
  row_get summary_df row name field = Ok (field row).
Proof. intros H. unfold row_get. now rewrite (require_ok _ _ H). Qed.

Lemma row_get_inv {A : Type} (summary_df : SummaryFrame) (row : SummaryRow)
    (name : string) (field : SummaryRow -> A) (a : A) :
  row_get summary_df row name field = Ok a ->
  has_column (s_columns summary_df) name = true /\ a = field row.
Proof.
  unfold row_get. intros H. bind_inv H. apply require_inv in Ha.
  split; [assumption | congruence].
Qed.

(** Undo a [row_get] or a [getitem] that returned. *)
Ltac get_inv H :=
  let Hc := fresh "Hcol" in
  first [ apply row_get_inv in H as (Hc & ->)
        | apply getitem_inv in H as (Hc & ->) ].

Lemma schema_column (columns schema : list string) (c : string) :
  forallb (has_column columns) schema = true -> In c schema ->
  has_column columns c = true.
Proof. intros H Hin. rewrite forallb_forall in H. now apply H. Qed.

Ltac column :=
  match goal with
  | H : forallb (has_column ?cols) ?schema = true |- has_column ?cols ?c = true =>
      apply (schema_column cols schema c H);
      cbv [summary_schema selected_timeline_columns In]; tauto
  end.

Lemma summary_header_ok (summary_df : SummaryFrame) (r : SummaryRow) (capital : float) :
  forallb (has_column (s_columns summary_df)) summary_schema = true ->
  summary_header summary_df r capital =
  Ok {| h_start := start_date r; h_end := end_date r; h_rows := rows r;
        h_initial_capital := (".2f", Float capital) |}.
Proof.
  intros H. unfold summary_header.
  rewrite !row_get_ok by column. reflexivity.
Qed.

Lemma metrics_data_ok (summary_df : SummaryFrame) (r : SummaryRow) :
  forallb (has_column (s_columns summary_df)) summary_schema = true ->
  metrics_data summary_df r = Ok (metrics_of r).
Proof.
  intros H. unfold metrics_data.
  rewrite !row_get_ok by column. reflexivity.
Qed.

Lemma metrics_data_inv (summary_df : SummaryFrame) (r : SummaryRow)
    (m : list (string * Formatted)) :
  metrics_data summary_df r = Ok m ->
  m = metrics_of r /\
  forallb (has_column (s_columns summary_df))
    ["net_pnl"; "total_return_pct"; "sharpe_ratio"; "max_drawdown_pct";
     "win_rate_pct"; "trades_per_year"; "avg_hold_hours"; "total_volume_usd";
     "avg_daily_volume"; "avg_hourly_volume"; "actual_trades"; "signal_flips"] = true.
Proof.
  unfold metrics_data. intros H.
  do 12 (let a := fresh "v" in let Ha := fresh "Hv" in
         apply bind_ok_inv in H as (a & Ha & H); get_inv Ha).
  injection H as <-. split; [reflexivity | ].
  cbn [forallb]. repeat (apply andb_true_intro; split; [assumption | ]). reflexivity.
Qed.

Lemma summary_header_inv (summary_df : SummaryFrame) (r : SummaryRow)
    (capital : float) (h : Header) :
  summary_header summary_df r capital = Ok h ->
  h = {| h_start := start_date r; h_end := end_date r; h_rows := rows r;
         h_initial_capital := (".2f", Float capital) |} /\
  forallb (has_column (s_columns summary_df)) ["start_date"; "end_date"; "rows"] = true.
Proof.
  unfold summary_header. intros H.
  do 3 (let a := fresh "v" in let Ha := fresh "Hv" in
        apply bind_ok_inv in H as (a & Ha & H); get_inv Ha).
  injection H as <-. split; [reflexivity | ].
  cbn [forallb]. repeat (apply andb_true_intro; split; [assumption | ]). reflexivity.
Qed.

(** *** Boolean indexing *)

Lemma select_filter (f g : TimelineRow -> bool) (l : list TimelineRow) :
  select l (values (series_or (map (fun r => (time r, f r)) l)
                              (map (fun r => (time r, g r)) l)))
  = filter (fun r => f r || g r) l.
Proof.
  unfold values, series_or.
  induction l as [ | a l IH]; simpl; [reflexivity | ].
  destruct (f a || g a); now rewrite IH.
Qed.

Lemma filter_ext_flagged (l : list TimelineRow) :
  filter (fun r => is_exit r || is_entry r) l = filter flagged l.
Proof.
  apply filter_ext. intros r. unfold flagged. apply orb_comm.
Qed.

Lemma trade_log_of_ok (df : TimelineFrame) :
  has_column (t_columns df) "is_entry" = true ->
  has_column (t_columns df) "is_exit" = true ->
  trade_log_of df = Ok {| t_columns := t_columns df; t_rows := filter flagged (t_rows df) |}.
Proof.
  intros Hen Hex. unfold trade_log_of.
  rewrite (getitem_ok _ _ _ Hex), (getitem_ok _ _ _ Hen). cbn [bind].
  unfold boolean_index. now rewrite select_filter, filter_ext_flagged.
Qed.

Lemma trade_log_of_inv (df log : TimelineFrame) :
  trade_log_of df = Ok log ->
  has_column (t_columns df) "is_entry" = true /\
  has_column (t_columns df) "is_exit" = true /\
  log = {| t_columns := t_columns df; t_rows := filter flagged (t_rows df) |}.
Proof.
  unfold trade_log_of. intros H.
  bind_inv H. get_inv Ha. bind_inv H. get_inv Ha.
  injection H as <-. repeat split; try assumption.
  unfold boolean_index. now rewrite select_filter, filter_ext_flagged.
Qed.

Lemma mapM_require_filter (columns l : list string) :
  exists us, mapM (require columns) (filter (has_column columns) l) = Ok us.
Proof.
  induction l as [ | c l (us & IH)]; simpl; [now exists [] | ].
  destruct (has_column columns c) eqn:Hc; [ | now exists us].
  simpl. rewrite (require_ok _ _ Hc). cbn [bind]. rewrite IH. cbn [bind]. eauto.
Qed.

Lemma trade_log_table_of_eq (log : TimelineFrame) :
  trade_log_table_of log =
  Ok (match t_rows log with
      | [] => None
      | _ => Some {| t_columns := available_cols log; t_rows := t_rows log |}
      end).
Proof.
  unfold trade_log_table_of, empty, project.
  destruct (t_rows log) as [ | r l]; [reflexivity | ].
  destruct (mapM_require_filter (t_columns log) display_cols) as (us & Hus).
  unfold available_cols. now rewrite Hus.
Qed.

Lemma trades_chart_ok (df : TimelineFrame) (curve : Series float) :
  has_column (t_columns df) "equity" = true ->
  has_column (t_columns df) "is_entry" = true ->
  has_column (t_columns df) "is_exit" = true ->
  exists chart, trades_chart df curve = Ok chart.
Proof.
  intros Heq Hen Hex. unfold trades_chart.
  rewrite (getitem_ok _ _ _ Hen), (getitem_ok _ _ _ Hex). cbn [bind].
  destruct (empty _); [eauto | ].
  rewrite !getitem_ok by assumption. cbn [bind].
  do 2 (match goal with
        | |- context [if empty ?d then _ else _] => destruct (empty d)
        end; cbn [bind]; rewrite ?getitem_ok by assumption; cbn [bind]); eauto.
Qed.

(** *** The comparison table *)

Lemma comparison_row_inv (summary_df : SummaryFrame) (r : SummaryRow) (c : ComparisonRow) :
  comparison_row summary_df r = Ok c ->
  exists name, dict_get period_names (period r) = Ok name /\ c = comparison_of name r.
Proof.
  unfold comparison_row. intros H.
  bind_inv H. get_inv Ha. bind_inv H.
  do 5 (let a := fresh "v" in let Ha := fresh "Hv" in
        apply bind_ok_inv in H as (a & Ha & H); get_inv Ha).
  injection H as <-. eauto.
Qed.

Lemma known_period_name (p : string) :
  known_period p = true -> exists name, dict_get period_names p = Ok name.
Proof.
  unfold known_period, periods, period_names. cbn [existsb dict_get].
  destruct (String.eqb p "last_month"); [eauto | ].
  destruct (String.eqb p "full_3mo"); [eauto | ].
  destruct (String.eqb p "prior_2mo"); [eauto | discriminate].
Qed.

Lemma comparison_row_ok (summary_df : SummaryFrame) (r : SummaryRow) :
  forallb (has_column (s_columns summary_df)) summary_schema = true ->
  known_period (period r) = true ->
  exists c, comparison_row summary_df r = Ok c.
Proof.
  intros Hcols Hknown. unfold comparison_row.
  destruct (known_period_name _ Hknown) as (name & Hname).
  rewrite !row_get_ok by column. cbn [bind]. rewrite Hname. cbn [bind]. eauto.
Qed.

Lemma mapM_ok {A B : Type} (f : A -> result B) (l : list A) :
  (forall a, In a l -> exists b, f a = Ok b) -> exists bs, mapM f l = Ok bs.
Proof.
  induction l as [ | a l IH]; simpl; intros H; [now exists [] | ].
  destruct (H a) as (b & Hb); [now left | ].
  destruct IH as (bs & Hbs); [intros; apply H; now right | ].
  rewrite Hb, Hbs. cbn [bind]. eauto.
Qed.

Lemma mapM_inv {A B : Type} (f : A -> result B) (l : list A) (bs : list B) :
  mapM f l = Ok bs -> Forall2 (fun a b => f a = Ok b) l bs.
Proof.
  revert bs. induction l as [ | a l IH]; simpl; intros bs H.
  - injection H as <-. constructor.
  - bind_inv H. bind_inv H. injection H as <-. constructor; auto.
Qed.

Lemma comparison_data_ok (summary_df : SummaryFrame) :
  forallb (has_column (s_columns summary_df)) summary_schema = true ->
  forallb (fun r => known_period (period r)) (s_rows summary_df) = true ->
  exists rows', comparison_data summary_df = Ok rows'.
Proof.
  intros Hcols Hknown. apply mapM_ok. intros r Hin.
  apply comparison_row_ok; [assumption | ].
  rewrite forallb_forall in Hknown. now apply Hknown.
Qed.

(** *** The pass as a whole *)

(** What a pass that ran to its end has read and shown. *)
Lemma render_inv (fs : FileSystem) (sel : Selection) (d : Dashboard) :
  render fs sel = Ok d ->
  exists summary_df timelines timeline_df,
    load_backtest_data fs = Ok (summary_df, timelines) /\
    dict_get timelines (period_id sel) = Ok timeline_df /\
    select_period summary_df (period_id sel) = Ok (d_period_summary d) /\
    has_column (s_columns summary_df) "initial_capital" = true /\
    has_column (t_columns timeline_df) "equity" = true /\
    d_equity d = ffill (map (fun r => (time r, equity r)) (t_rows timeline_df)) /\
    d_cum_pnl d = cum_pnl_of (d_equity d) (initial_capital (d_period_summary d)) /\
    summary_header summary_df (d_period_summary d)
      (initial_capital (d_period_summary d)) = Ok (d_header d) /\
    metrics_data summary_df (d_period_summary d) = Ok (d_metrics d) /\
    daily_volume_of timeline_df = Ok (d_daily_volume d) /\
    has_column (t_columns timeline_df) "signal" = true /\
    trade_log_of timeline_df = Ok (d_trade_log d) /\
    trade_log_table_of (d_trade_log d) = Ok (d_trade_log_table d) /\
    comparison_data summary_df = Ok (d_comparison d).
Proof.
  unfold render. rewrite period_options_get. cbn [bind]. intros H.
  apply bind_ok_inv in H as ([summary_df timelines] & Hload & H).
  apply bind_ok_inv in H as (timeline_df & Htl & H).
  apply bind_ok_inv in H as (period_summary & Hsel & H).
  apply bind_ok_inv in H as (capital & Hcap & H). get_inv Hcap.
  apply bind_ok_inv in H as (equity_col & Heq & H). get_inv Heq.
  apply bind_ok_inv in H as (header & Hhead & H).
  apply bind_ok_inv in H as (metrics & Hmet & H).
  apply bind_ok_inv in H as (daily & Hdaily & H).
  apply bind_ok_inv in H as (raw & Hraw & H).
  apply bind_ok_inv in H as (sig & Hsig & H). get_inv Hsig.
  apply bind_ok_inv in H as (chart & Hchart & H).
  apply bind_ok_inv in H as (log & Hlog & H).
  apply bind_ok_inv in H as (table & Htable & H).
  apply bind_ok_inv in H as (comparison & Hcomp & H).
  injection H as <-. cbn.
  exists summary_df, timelines, timeline_df. repeat split; assumption.
Qed.

(** On renderable inputs the loader returns the four tables. *)
Lemma renderable_load (fs : FileSystem) (sel : Selection) :
  renderable fs sel ->
  load_backtest_data fs =
  Ok (summary_at fs summary_path,
      map (fun p => (p, trimmed (timeline_at fs (timeline_path p)))) periods).
Proof.
  intros (Hfiles & Htl & Hcols & _).
  rewrite load_backtest_data_spec.
  - now rewrite (first_missing_none fs Hfiles).
  - split.
    + intros _. split; column.
    + intros p Hin _. now apply Htl.
Qed.

Lemma renderable_timeline (fs : FileSystem) (sel : Selection) :
  dict_get (map (fun p => (p, trimmed (timeline_at fs (timeline_path p)))) periods)
           (period_id sel)
  = Ok (selected_timeline fs sel).
Proof.
  unfold selected_timeline.
  apply (dict_get_map (fun p => trimmed (timeline_at fs (timeline_path p)))).
  apply period_id_In.
Qed.

(** On renderable inputs the pass runs to its end. *)
Lemma render_ok (fs : FileSystem) (sel : Selection) :
  renderable fs sel -> exists d, render fs sel = Ok d.
Proof.
  intros Hr. pose proof (renderable_load fs sel Hr) as Hload.
  destruct Hr as (Hfiles & Htl & Hcols & Htcols & Hknown & Hmatch).
  unfold render. rewrite Hload, period_options_get. cbn [bind].
  rewrite renderable_timeline. cbn [bind].
  rewrite select_period_find by column.
  destruct (find_existsb _ _ Hmatch) as (r0 & Hfind). rewrite Hfind. cbn [bind].
  rewrite row_get_ok by column. cbn [bind].
  assert (Heq : has_column (t_columns (selected_timeline fs sel)) "equity" = true).
  { apply (Htl (period_id sel) (period_id_In sel)). }
  assert (Hc : forall c, In c selected_timeline_columns ->
                         has_column (t_columns (selected_timeline fs sel)) c = true).
  { intros c Hin. apply (schema_column _ _ c Htcols Hin). }
  rewrite (getitem_ok _ _ _ Heq). cbn [bind].
  rewrite summary_header_ok, metrics_data_ok by assumption. cbn [bind].
  unfold daily_volume_of.
  rewrite (getitem_ok (selected_timeline fs sel) "volume_usd")
    by (apply Hc; simpl; tauto).
  cbn [bind].
  rewrite (getitem_ok (selected_timeline fs sel) "signal") by (apply Hc; simpl; tauto).
  cbn [bind].
  destruct (trades_chart_ok (selected_timeline fs sel)
              (ffill (map (fun r => (time r, equity r)) (t_rows (selected_timeline fs sel)))))
    as (chart & Hchart); [assumption | apply Hc; simpl; tauto .. | ].
  rewrite Hchart. cbn [bind].
  rewrite trade_log_of_ok by (apply Hc; simpl; tauto). cbn [bind].
  rewrite trade_log_table_of_eq. cbn [bind].
  destruct (comparison_data_ok _ Hcols Hknown) as (comparison & Hcomp).
  rewrite Hcomp. cbn [bind]. eauto.
Qed.

(** On renderable inputs, what the pass shows is about the selected
    period's trimmed timeline and the summary file. *)
Lemma render_renderable_inv (fs : FileSystem) (sel : Selection) (d : Dashboard) :
  renderable fs sel -> render fs sel = Ok d ->
  let summary_df := summary_at fs summary_path in
  let timeline_df := selected_timeline fs sel in
  find (matches (period_id sel)) (s_rows summary_df) = Some (d_period_summary d) /\
  d_equity d = ffill (map (fun r => (time r, equity r)) (t_rows timeline_df)) /\
  d_cum_pnl d = cum_pnl_of (d_equity d) (initial_capital (d_period_summary d)) /\
  d_header d = {| h_start := start_date (d_period_summary d);
                  h_end := end_date (d_period_summary d);
                  h_rows := rows (d_period_summary d);
                  h_initial_capital :=
                    (".2f", Float (initial_capital (d_period_summary d))) |} /\
  d_metrics d = metrics_of (d_period_summary d) /\
  d_daily_volume d =
    groupby_date_sum (map (fun r => (time r, volume_usd r)) (t_rows timeline_df)) /\
  d_trade_log d = {| t_columns := t_columns timeline_df;
                     t_rows := filter flagged (t_rows timeline_df) |} /\
  d_trade_log_table d =
    match t_rows (d_trade_log d) with
    | [] => None
    | _ => Some {| t_columns := available_cols (d_trade_log d);
                   t_rows := t_rows (d_trade_log d) |}
    end /\
  comparison_data summary_df = Ok (d_comparison d).
Proof.
  intros Hr H. cbv zeta.
  apply render_inv in H
    as (summary_df & timelines & timeline_df & Hload & Htl & Hsel & _ & _ & Heq
        & Hpnl & Hhead & Hmet & Hdaily & _ & Hlog & Htable & Hcomp).
  rewrite (renderable_load fs sel Hr) in Hload.
  injection Hload as Hs Ht. subst summary_df timelines.
  pose proof (renderable_timeline fs sel) as Hst.
  unfold periods in Hst. cbn [map] in Hst. rewrite Hst in Htl. clear Hst.
  injection Htl as Ht. subst timeline_df.
  apply select_period_inv in Hsel as (_ & Hfind).
  apply summary_header_inv in Hhead as (Hhead & _).
  apply metrics_data_inv in Hmet as (Hmet & _).
  apply trade_log_of_inv in Hlog as (_ & _ & Hlog).
  rewrite trade_log_table_of_eq in Htable. injection Htable as Htable.
  unfold daily_volume_of in Hdaily. bind_inv Hdaily. get_inv Ha.
  injection Hdaily as Hdaily.
  repeat split; auto.
Qed.

Lemma trim_warmup_reads_equity (df df' : TimelineFrame) :
  trim_warmup df = Ok df' -> has_column (t_columns df) "equity" = true.
Proof.
  unfold trim_warmup. intros H. bind_inv H. now apply getitem_inv in Ha.
Qed.

Lemma dict_get_keys {V : Type} (d : list (string * V)) (k : string) :
  In k (map fst d) -> exists v, dict_get d k = Ok v.
Proof.
  induction d as [ | [k' v'] d IH]; simpl; [tauto | ].
  destruct (String.eqb_spec k k') as [<- | Hne]; [eauto | ].
  intros [Heq | Hin]; [congruence | now apply IH].
Qed.

(** Every column a finished pass has read was there. *)
Lemma render_reads_columns (fs : FileSystem) (sel : Selection) (d : Dashboard) :
  render fs sel = Ok d ->
  forallb (has_column (s_columns (summary_at fs summary_path))) summary_schema = true /\
  (forall p, In p periods ->
     has_column (t_columns (timeline_at fs (timeline_path p))) "equity" = true) /\
  forallb (has_column (t_columns (timeline_at fs (timeline_path (period_id sel)))))
          selected_timeline_columns = true.
Proof.
  intros H.
  apply render_inv in H
    as (summary_df & timelines & timeline_df & Hload & Htl & Hsel & Hcap & _ & _
        & _ & Hhead & Hmet & Hdaily & Hsig & Hlog & _ & _).
  apply load_backtest_data_inv in Hload as (-> & Hstart & Hend & Hload).
  apply load_timelines_inv in Hload as (Hkeys & Hall).
  apply select_period_inv in Hsel as (Hperiod & _).
  apply summary_header_inv in Hhead as (_ & Hhead).
  apply metrics_data_inv in Hmet as (_ & Hmet).
  apply trade_log_of_inv in Hlog as (Hen & Hex & _).
  unfold daily_volume_of in Hdaily. bind_inv Hdaily. apply getitem_inv in Ha as (Hvol & _).
  cbn [forallb] in Hhead, Hmet.
  repeat (match goal with
          | H : _ && _ = true |- _ => apply andb_prop in H as (? & H)
          end).
  split; [ | split].
  - cbn [forallb summary_schema].
    repeat (apply andb_true_intro; split; [assumption | ]). reflexivity.
  - intros p Hin. rewrite <- Hkeys in Hin.
    apply dict_get_keys in Hin as (df' & Hget). apply dict_get_In in Hget.
    destruct (Hall _ _ Hget) as (_ & Htrim).
    now apply trim_warmup_reads_equity in Htrim.
  - apply dict_get_In in Htl. destruct (Hall _ _ Htl) as (_ & Htrim).
    apply trim_warmup_suffix in Htrim as (Hcols & _). rewrite <- Hcols.
    cbn [forallb selected_timeline_columns].
    repeat (apply andb_true_intro; split; [assumption | ]). reflexivity.
Qed.

Lemma sample_fs_renderable (sel : Selection) : renderable sample_fs sel.
Proof.
  split; [exact sample_fs_complete | ].
  split; [intros p _; exact sample_timeline_well_formed | ].
  repeat split; solve [reflexivity | now destruct sel].
Qed.

Lemma long_timeline_well_formed : timeline_well_formed long_timeline.
Proof. repeat split; [discriminate | solve_nodup]. Qed.

Lemma sample_fs_long_renderable (sel : Selection) : renderable sample_fs_long sel.
Proof.
  split; [exact sample_fs_complete | ].
  split; [intros p _; exact long_timeline_well_formed | ].
  repeat split; solve [reflexivity | now destruct sel].
Qed.

(** ** The claims about the rendering pass *)

Lemma ffill_from_index (last : float) (s : Series float) :
  map fst (ffill_from last s) = map fst s.
Proof.
  revert last. induction s as [ | [t x] s IH]; intros last; simpl; [reflexivity | ].
  destruct (is_nan x); simpl; now rewrite IH.
Qed.

Lemma cum_pnl_of_index (s : Series float) (capital : float) :
  map fst (cum_pnl_of s capital) = map fst s.
Proof.
  unfold cum_pnl_of. rewrite map_map. apply map_ext. now intros [t e].
Qed.

Lemma cum_pnl_of_nth (s : Series float) (capital : float) (i : nat)
    (t : Timestamp) (e : float) :
  nth_error s i = Some (t, e) ->
  nth_error (cum_pnl_of s capital) i = Some (t, (e - capital)%float).
Proof.
  intros H. unfold cum_pnl_of. rewrite nth_error_map, H. reflexivity.
Qed.

(** C4: on renderable inputs the pass runs to its end; the capital is the
    initial capital of the summary row selected for the period; the
    cumulative PnL series has one value per row of the timeline, under the
    same timestamps, and at every row it is the forward-filled equity of that
    row minus the capital. *)
Theorem cum_pnl_is_equity_minus_capital (fs : FileSystem) (sel : Selection) :
  renderable fs sel ->
  exists d r0,
    render fs sel = Ok d /\
    find (matches (period_id sel)) (s_rows (summary_at fs summary_path)) = Some r0 /\
    d_equity d =
      ffill (map (fun r => (time r, equity r)) (t_rows (selected_timeline fs sel))) /\
    map fst (d_cum_pnl d) = map time (t_rows (selected_timeline fs sel)) /\
    forall i t e,
      nth_error (d_equity d) i = Some (t, e) ->
      nth_error (d_cum_pnl d) i = Some (t, (e - initial_capital r0)%float).
Proof.
  intros Hr. destruct (render_ok fs sel Hr) as (d & Hd).
  destruct (render_renderable_inv fs sel d Hr Hd)
    as (Hfind & Heq & Hpnl & _).
  exists d, (d_period_summary d). repeat split; try assumption.
  - rewrite Hpnl, cum_pnl_of_index, Heq. unfold ffill.
    rewrite ffill_from_index, map_map. reflexivity.
  - intros i t e Hi. rewrite Hpnl. now apply cum_pnl_of_nth.
Qed.

Lemma cum_pnl_is_equity_minus_capital_sample :
  renderable sample_fs Last_Month /\
  exists d r0,
    render sample_fs Last_Month = Ok d /\
    find (matches "last_month") (s_rows sample_summary) = Some r0 /\
    d_equity d =
      ffill (map (fun r => (time r, equity r))
                 (t_rows (selected_timeline sample_fs Last_Month))) /\
    map fst (d_cum_pnl d) = map time (t_rows (selected_timeline sample_fs Last_Month)) /\
    forall i t e,
      nth_error (d_equity d) i = Some (t, e) ->
      nth_error (d_cum_pnl d) i = Some (t, (e - initial_capital r0)%float).
Proof.
  split; [exact (sample_fs_renderable Last_Month) | ].
  exact (cum_pnl_is_equity_minus_capital sample_fs Last_Month
           (sample_fs_renderable Last_Month)).
Defined.

(** C5: on renderable inputs the pass runs to its end; the trade log holds
    the rows of the timeline whose entry flag or exit flag is set, each as
    often and in the order the timeline has them, and no other row; the table
    shown has exactly these rows, and the note that replaces it is shown only
    when there is none. *)
Theorem trade_log_is_flagged_rows (fs : FileSystem) (sel : Selection) :
  renderable fs sel ->
  exists d,
    render fs sel = Ok d /\
    t_rows (d_trade_log d) =
      filter (fun r => is_entry r || is_exit r) (t_rows (selected_timeline fs sel)) /\
    (forall r, In r (t_rows (d_trade_log d)) <->
               In r (t_rows (selected_timeline fs sel)) /\
               (is_entry r = true \/ is_exit r = true)) /\
    match d_trade_log_table d with
    | Some shown => t_rows shown = t_rows (d_trade_log d)
    | None => t_rows (d_trade_log d) = []
    end.
Proof.
  intros Hr. destruct (render_ok fs sel Hr) as (d & Hd).
  destruct (render_renderable_inv fs sel d Hr Hd)
    as (_ & _ & _ & _ & _ & _ & Hlog & Htable & _).
  exists d. split; [assumption | ].
  assert (Hrows : t_rows (d_trade_log d) = filter flagged (t_rows (selected_timeline fs sel)))
    by now rewrite Hlog.
  split; [exact Hrows | split].
  - intros r. rewrite Hrows, filter_In. unfold flagged.
    now rewrite orb_true_iff.
  - rewrite Htable. now destruct (t_rows (d_trade_log d)).
Qed.

Lemma trade_log_is_flagged_rows_sample :
  renderable sample_fs Last_Month /\
  exists d,
    render sample_fs Last_Month = Ok d /\
    t_rows (d_trade_log d) =
      filter (fun r => is_entry r || is_exit r)
             (t_rows (selected_timeline sample_fs Last_Month)) /\
    (forall r, In r (t_rows (d_trade_log d)) <->
               In r (t_rows (selected_timeline sample_fs Last_Month)) /\
               (is_entry r = true \/ is_exit r = true)) /\
    match d_trade_log_table d with
    | Some shown => t_rows shown = t_rows (d_trade_log d)
    | None => t_rows (d_trade_log d) = []
    end.
Proof.
  split; [exact (sample_fs_renderable Last_Month) | ].
  exact (trade_log_is_flagged_rows sample_fs Last_Month
           (sample_fs_renderable Last_Month)).
Defined.

Lemma find_none_iff {A : Type} (f : A -> bool) (l : list A) :
  (forall x, In x l -> f x = false) -> find f l = None.
Proof.
  induction l as [ | a l IH]; simpl; intros H; [reflexivity | ].
  rewrite (H a) by now left. apply IH. intros; apply H; now right.
Qed.

Lemma matches_eq (selected_period : string) (r : SummaryRow) :
  matches selected_period r = true <-> period r = selected_period.
Proof. unfold matches. apply String.eqb_eq. Qed.

Lemma matches_neq (selected_period : string) (r : SummaryRow) :
  matches selected_period r = false <-> period r <> selected_period.
Proof. unfold matches. apply String.eqb_neq. Qed.

(** C10: a pass runs to its end only if the summary has a row for the
    selected period, and it then takes the period's summary, header, metrics
    and capital from the first such row; once the tables are loaded and the
    period column is there, a summary without such a row ends the pass with
    IndexError; on renderable inputs the pass does run to its end. *)
Theorem render_uses_first_matching_row (fs : FileSystem) (sel : Selection) :
  (forall summary_df timelines,
     load_backtest_data fs = Ok (summary_df, timelines) ->
     has_column (s_columns summary_df) "period" = true ->
     (forall r, In r (s_rows summary_df) -> period r <> period_id sel) ->
     render fs sel = Raise IndexError) /\
  (forall d,
     render fs sel = Ok d ->
     exists before r0 after,
       s_rows (summary_at fs summary_path) = before ++ r0 :: after /\
       period r0 = period_id sel /\
       (forall r, In r before -> period r <> period_id sel) /\
       d_period_summary d = r0 /\
       d_header d = {| h_start := start_date r0; h_end := end_date r0;
                       h_rows := rows r0;
                       h_initial_capital := (".2f", Float (initial_capital r0)) |} /\
       d_metrics d = metrics_of r0 /\
       d_cum_pnl d = cum_pnl_of (d_equity d) (initial_capital r0)) /\
  (renderable fs sel -> exists d, render fs sel = Ok d).
Proof.
  split; [ | split].
  - intros summary_df timelines Hload Hcol Hnone.
    unfold render. rewrite Hload, period_options_get. cbn [bind].
    apply load_backtest_data_inv in Hload as (_ & _ & _ & Hload).
    apply load_timelines_inv in Hload as (Hkeys & _).
    destruct (dict_get_keys timelines (period_id sel)) as (df & Hdf).
    { rewrite Hkeys. apply period_id_In. }
    rewrite Hdf. cbn [bind].
    rewrite (select_period_find _ _ Hcol), find_none_iff; [reflexivity | ].
    intros r Hin. apply matches_neq. now apply Hnone.
  - intros d H.
    apply render_inv in H
      as (summary_df & timelines & timeline_df & Hload & _ & Hsel & _ & _ & _
          & Hpnl & Hhead & Hmet & _).
    apply load_backtest_data_inv in Hload as (-> & _).
    apply select_period_inv in Hsel as (_ & Hfind).
    apply find_first in Hfind as (before & after & Hsplit & Hm & Hbefore).
    apply summary_header_inv in Hhead as (Hhead & _).
    apply metrics_data_inv in Hmet as (Hmet & _).
    exists before, (d_period_summary d), after.
    repeat split; try assumption.
    + now apply matches_eq.
    + intros r Hin. apply matches_neq. now apply Hbefore.
  - apply render_ok.
Qed.

Lemma render_uses_first_matching_row_sample :
  render sample_fs_without_last_month Last_Month = Raise IndexError /\
  exists d, render sample_fs Last_Month = Ok d /\
            d_period_summary d = summary_row "last_month" 1000 1 /\
            d_metrics d = metrics_of (summary_row "last_month" 1000 1).
Proof.
  split.
  - destruct (render_uses_first_matching_row sample_fs_without_last_month Last_Month)
      as (Hnone & _).
    apply (Hnone (summary_at sample_fs_without_last_month summary_path)
                 (map (fun p => (p, trimmed sample_timeline)) periods)).
    + vm_compute. reflexivity.
    + reflexivity.
    + intros r [<- | [<- | []]]; discriminate.
  - destruct (render_uses_first_matching_row sample_fs Last_Month)
      as (_ & Hfirst & Hruns).
    destruct (Hruns (sample_fs_renderable Last_Month)) as (d & Hd).
    destruct (Hfirst d Hd)
      as (before & r0 & after & Hsplit & Hperiod & Hbefore & Hsum & _ & Hmet & _).
    exists d. split; [assumption | ].
    assert (Hr0 : r0 = summary_row "last_month" 1000 1).
    { destruct before as [ | b before].
      - now injection Hsplit as <- _.
      - injection Hsplit as <- _. exfalso. apply (Hbefore _ (or_introl eq_refl)).
        reflexivity. }
    rewrite Hmet, Hsum, Hr0. split; reflexivity.
Defined.

Lemma period_names_injective (p q name : string) :
  dict_get period_names p = Ok name ->
  dict_get period_names q = Ok name ->
  p = q.
Proof.
  unfold period_names. cbn [dict_get].
  destruct (String.eqb_spec p "last_month") as [-> | _];
    [ | destruct (String.eqb_spec p "full_3mo") as [-> | _];
        [ | destruct (String.eqb_spec p "prior_2mo") as [-> | _]; [ | discriminate]]];
    intros [= <-];
    (destruct (String.eqb_spec q "last_month") as [-> | _];
      [ | destruct (String.eqb_spec q "full_3mo") as [-> | _];
          [ | destruct (String.eqb_spec q "prior_2mo") as [-> | _]; [ | discriminate]]]);
    intros H; solve [reflexivity | discriminate H].
Qed.

Lemma comparison_data_inv (summary_df : SummaryFrame) (table : list ComparisonRow) :
  comparison_data summary_df = Ok table ->
  Forall2 (fun r c => dict_get period_names (period r) = Ok (c_period c) /\
                      c = comparison_of (c_period c) r)
          (s_rows summary_df) table.
Proof.
  intros H. apply mapM_inv in H.
  induction H as [ | r c l table Hrc _ IH]; constructor; [ | exact IH].
  apply comparison_row_inv in Hrc as (name & Hname & ->). now split.
Qed.

Lemma comparison_counts (l : list SummaryRow) (table : list ComparisonRow)
    (p name : string) :
  Forall2 (fun r c => dict_get period_names (period r) = Ok (c_period c) /\
                      c = comparison_of (c_period c) r) l table ->
  dict_get period_names p = Ok name ->
  count_occ string_dec (map c_period table) name
  = count_occ string_dec (map period l) p.
Proof.
  intros H Hname. induction H as [ | r c l table (Hrc & _) _ IH]; [reflexivity | ].
  cbn [map count_occ]. rewrite IH.
  destruct (string_dec (c_period c) name) as [Hc | Hc];
    destruct (string_dec (period r) p) as [Hp | Hp]; try reflexivity; exfalso.
  - apply Hp. rewrite Hc in Hrc. exact (period_names_injective _ _ _ Hrc Hname).
  - apply Hc. rewrite Hp, Hname in Hrc. now injection Hrc.
Qed.

(** C2, as the code has it: on renderable inputs (in particular every period
    identifier of the summary is one of the three known ones) the comparison
    table has one row for each row of the summary table, in the same order,
    labelled with the display name of that row's period and filled from that
    row; so a period has as many rows in the comparison table as it has in the
    summary table, and exactly one when the summary lists it once. *)
Theorem comparison_has_one_row_per_summary_row (fs : FileSystem) (sel : Selection) :
  renderable fs sel ->
  exists d,
    render fs sel = Ok d /\
    Forall2 (fun r c => dict_get period_names (period r) = Ok (c_period c) /\
                        c = comparison_of (c_period c) r)
            (s_rows (summary_at fs summary_path)) (d_comparison d) /\
    (forall p name,
       dict_get period_names p = Ok name ->
       count_occ string_dec (map c_period (d_comparison d)) name
       = count_occ string_dec (map period (s_rows (summary_at fs summary_path))) p) /\
    (forall p name,
       dict_get period_names p = Ok name ->
       count_occ string_dec (map period (s_rows (summary_at fs summary_path))) p = 1%nat ->
       count_occ string_dec (map c_period (d_comparison d)) name = 1%nat).
Proof.
  intros Hr. destruct (render_ok fs sel Hr) as (d & Hd).
  destruct (render_renderable_inv fs sel d Hr Hd)
    as (_ & _ & _ & _ & _ & _ & _ & _ & Hcomp).
  apply comparison_data_inv in Hcomp.
  exists d. split; [assumption | split; [assumption | split]].
  - intros p name Hname. now apply comparison_counts.
  - intros p name Hname Hone. now rewrite (comparison_counts _ _ p name Hcomp Hname).
Qed.

Lemma comparison_has_one_row_per_summary_row_sample :
  renderable sample_fs Last_Month /\
  exists d,
    render sample_fs Last_Month = Ok d /\
    Forall2 (fun r c => dict_get period_names (period r) = Ok (c_period c) /\
                        c = comparison_of (c_period c) r)
            (s_rows sample_summary) (d_comparison d) /\
    (forall p name,
       dict_get period_names p = Ok name ->
       count_occ string_dec (map c_period (d_comparison d)) name
       = count_occ string_dec (map period (s_rows sample_summary)) p) /\
    (forall p name,
       dict_get period_names p = Ok name ->
       count_occ string_dec (map period (s_rows sample_summary)) p = 1%nat ->
       count_occ string_dec (map c_period (d_comparison d)) name = 1%nat).
Proof.
  split; [exact (sample_fs_renderable Last_Month) | ].
  exact (comparison_has_one_row_per_summary_row sample_fs Last_Month
           (sample_fs_renderable Last_Month)).
Defined.

(** C2 fails as stated: this summary has two rows for last month; the pass
    runs to its end and the comparison table has two rows labelled
    Last Month, not one. *)
Lemma comparison_repeats_repeated_period :
  exists d,
    render sample_fs_repeated_period Last_Month = Ok d /\
    map period (s_rows (summary_at sample_fs_repeated_period summary_path))
    = ["last_month"; "last_month"; "full_3mo"; "prior_2mo"] /\
    map c_period (d_comparison d)
    = ["Last Month"; "Last Month"; "Full 3 Months"; "Prior 2 Months"] /\
    count_occ string_dec (map c_period (d_comparison d)) "Last Month" = 2%nat.
Proof.
  eexists. split; [vm_compute; reflexivity | ].
  repeat split; vm_compute; reflexivity.
Qed.

(** C8, as the code has it: a pass over tables that lack a column the pass
    reads without asking first ends with an exception; the columns of the
    trade-log display are looked up in the header first, and the table shown
    has exactly those of them that the timeline has. *)
Theorem missing_required_column_is_fatal (fs : FileSystem) (sel : Selection) :
  (required_column_missing fs sel -> exists e, render fs sel = Raise e) /\
  (forall d shown,
     render fs sel = Ok d ->
     d_trade_log_table d = Some shown ->
     t_columns shown =
     filter (has_column (t_columns (timeline_at fs (timeline_path (period_id sel)))))
            display_cols).
Proof.
  split.
  - intros Hmiss. destruct (render fs sel) as [d | e] eqn:Hd; [exfalso | eauto].
    apply render_reads_columns in Hd as (Hsum & Heq & Hsel).
    destruct Hmiss as [(c & Hin & Hc) | [(p & Hin & Hc) | (c & Hin & Hc)]].
    + rewrite (schema_column _ _ c Hsum Hin) in Hc. discriminate.
    + rewrite (Heq p Hin) in Hc. discriminate.
    + rewrite (schema_column _ _ c Hsel Hin) in Hc. discriminate.
  - intros d shown H Hshown.
    apply render_inv in H
      as (summary_df & timelines & timeline_df & Hload & Htl & _ & _ & _ & _
          & _ & _ & _ & _ & _ & Hlog & Htable & _).
    apply load_backtest_data_inv in Hload as (_ & _ & _ & Hload).
    apply load_timelines_inv in Hload as (_ & Hall).
    apply dict_get_In in Htl. destruct (Hall _ _ Htl) as (_ & Htrim).
    apply trim_warmup_suffix in Htrim as (Hcols & _).
    apply trade_log_of_inv in Hlog as (_ & _ & Hlog).
    rewrite trade_log_table_of_eq in Htable. injection Htable as Htable.
    rewrite Hshown in Htable.
    destruct (t_rows (d_trade_log d)); [discriminate | ].
    injection Htable as Htable. rewrite <- Htable. cbn [t_columns].
    unfold available_cols. now rewrite Hlog, <- Hcols.
Qed.

Lemma missing_required_column_is_fatal_sample :
  required_column_missing sample_fs_without_signal Last_Month /\
  exists e, render sample_fs_without_signal Last_Month = Raise e.
Proof.
  assert (H : required_column_missing sample_fs_without_signal Last_Month).
  { right. right. exists "signal". split; [ | reflexivity]. right. now left. }
  split; [exact H | ].
  exact (proj1 (missing_required_column_is_fatal sample_fs_without_signal Last_Month) H).
Defined.

(** C8 fails as stated: the trade-log display expects a price column, these
    timelines have none, and the pass runs to its end and shows the trade log
    with the columns that are there. *)
Lemma render_tolerates_missing_price :
  In "price" display_cols /\
  (forall p, has_column (t_columns (timeline_at sample_fs_without_price (timeline_path p)))
                        "price" = false) /\
  exists d shown,
    render sample_fs_without_price Last_Month = Ok d /\
    d_trade_log_table d = Some shown /\
    t_columns shown = ["signal"; "qty"; "pnl"; "equity"; "volume_usd"; "is_entry"; "is_exit"].
Proof.
  split; [right; now left | ].
  split; [reflexivity | ].
  eexists. eexists. split; [vm_compute; reflexivity | split; reflexivity].
Qed.

(** ** Daily volume *)

Section Groups.

Variables (d : Z) (v : float).

Lemma add_to_keys (P : Z -> Prop) (acc : list (Z * GroupSum)) :
  P d -> Forall P (map fst acc) -> Forall P (map fst (add_to d v acc)).
Proof.
  intros Hd. induction acc as [ | [d' s] acc IH]; simpl; intros H.
  - now repeat constructor.
  - inversion H as [ | x xs Hx Hxs]; subst.
    destruct (d <? d')%Z; [ | destruct (d =? d')%Z]; simpl;
      repeat constructor; auto.
Qed.

Lemma add_to_increasing (acc : list (Z * GroupSum)) :
  increasing acc -> increasing (add_to d v acc).
Proof.
  unfold increasing.
  induction acc as [ | [d' s] acc IH]; simpl; intros H.
  - repeat constructor.
  - inversion H as [ | x xs Hsorted Hlow]; subst.
    destruct (Z.ltb_spec d d') as [Hlt | Hge].
    + simpl. constructor; [assumption | ].
      constructor; [assumption | ].
      eapply Forall_impl; [ | exact Hlow]. intros k Hk. cbn beta in Hk. lia.
    + destruct (Z.eqb_spec d d') as [Heq | Hne]; simpl.
      * now constructor.
      * constructor; [now apply IH | ].
        apply add_to_keys; [lia | assumption].
Qed.

Lemma lookup_below {A : Type} (acc : list (Z * A)) :
  Forall (Z.lt d) (map fst acc) -> lookup d acc = None.
Proof.
  induction acc as [ | [d' s] acc IH]; simpl; intros H; [reflexivity | ].
  inversion H as [ | x xs Hx Hxs]; subst.
  destruct (Z.eqb_spec d' d) as [Heq | _]; [lia | now apply IH].
Qed.

Lemma lookup_add_to (day : Z) (acc : list (Z * GroupSum)) :
  increasing acc ->
  lookup day (add_to d v acc) =
  if (d =? day)%Z then Some (plus (or_start (lookup d acc)) v) else lookup day acc.
Proof.
  unfold increasing.
  induction acc as [ | [d' s] acc IH]; simpl; intros H.
  - reflexivity.
  - inversion H as [ | x xs Hsorted Hlow]; subst.
    destruct (Z.ltb_spec d d') as [Hlt | Hge].
    + simpl. destruct (Z.eqb_spec d day) as [Heq | Hne]; [ | reflexivity].
      destruct (Z.eqb_spec d' d) as [Heq' | _]; [lia | ].
      rewrite lookup_below; [reflexivity | ].
      eapply Forall_impl; [ | exact Hlow]. intros k Hk. cbn beta in Hk. lia.
    + destruct (Z.eqb_spec d d') as [Heq | Hne]; simpl.
      * subst d'. rewrite Z.eqb_refl. cbn [or_start].
        destruct (Z.eqb_spec d day); reflexivity.
      * rewrite (IH Hsorted).
        destruct (Z.eqb_spec d' d) as [Heq' | _]; [congruence | ].
        destruct (Z.eqb_spec d' day) as [Hd' | _]; [ | reflexivity].
        destruct (Z.eqb_spec d day) as [Hd | _]; [congruence | reflexivity].
Qed.

End Groups.

Lemma groupby_fold_increasing (s : Series float) (acc : list (Z * GroupSum)) :
  increasing acc ->
  increasing (fold_left (fun acc '(t, v) => add_to (date t) v acc) s acc).
Proof.
  revert acc. induction s as [ | [t v] s IH]; simpl; intros acc H; [assumption | ].
  apply IH. now apply add_to_increasing.
Qed.

Lemma lookup_groupby_fold (day : Z) (s : Series float) (acc : list (Z * GroupSum)) :
  increasing acc ->
  lookup day (fold_left (fun acc '(t, v) => add_to (date t) v acc) s acc) =
  if match lookup day acc with Some _ => true | None => false end
     || existsb (fun '(t, _) => (date t =? day)%Z) s
  then Some (fold_left plus
               (map snd (filter (fun '(t, _) => (date t =? day)%Z) s))
               (or_start (lookup day acc)))
  else None.
Proof.
  revert acc. induction s as [ | [t v] s IH]; simpl; intros acc H.
  - rewrite orb_false_r. now destruct (lookup day acc).
  - rewrite (IH _ (add_to_increasing (date t) v acc H)).
    rewrite (lookup_add_to (date t) v day acc H).
    destruct (Z.eqb_spec (date t) day) as [Heq | Hne].
    + subst day. cbn [orb or_start map fold_left snd]. now rewrite orb_true_r.
    + reflexivity.
Qed.

Lemma lookup_In {A : Type} (acc : list (Z * A)) (day : Z) (total : A) :
  increasing acc ->
  (In (day, total) acc <-> lookup day acc = Some total).
Proof.
  unfold increasing.
  induction acc as [ | [d s] acc IH]; simpl; intros H.
  - split; [tauto | discriminate].
  - inversion H as [ | x xs Hsorted Hlow]; subst.
    destruct (Z.eqb_spec d day) as [Heq | Hne].
    + subst d. split.
      * intros [[= ->] | Hin]; [reflexivity | ].
        apply (in_map fst) in Hin. rewrite Forall_forall in Hlow.
        apply Hlow in Hin. simpl in Hin. lia.
      * intros [= ->]. now left.
    + rewrite <- (IH Hsorted). split; [ | tauto].
      intros [[= Hd _] | Hin]; [congruence | assumption].
Qed.

(** The sums of the groups, looked up by day. *)
Lemma lookup_sums (day : Z) (acc : list (Z * GroupSum)) :
  lookup day (map (fun '(d, g) => (d, sumx g)) acc)
  = option_map sumx (lookup day acc).
Proof.
  induction acc as [ | [d g] acc IH]; simpl; [reflexivity | ].
  destruct (d =? day)%Z; [reflexivity | exact IH].
Qed.

Lemma sums_keys (acc : list (Z * GroupSum)) :
  map fst (map (fun '(d, g) => (d, sumx g)) acc) = map fst acc.
Proof. rewrite map_map. apply map_ext. now intros [d g]. Qed.

(** The kernel's steps add up to the compensated sum. *)
Lemma fold_plus_compensated (vs : list float) (s : GroupSum) :
  sumx (fold_left plus vs s) = compensated_sum (sumx s) (compensation s) vs.
Proof.
  revert s. induction vs as [ | v vs IH]; intros s; [reflexivity | ].
  cbn [fold_left compensated_sum]. rewrite IH. unfold plus.
  destruct (is_nan v); reflexivity.
Qed.

Lemma series_rows_on (day : Z) (l : list TimelineRow) :
  map snd (filter (fun '(t, _) => (date t =? day)%Z)
                  (map (fun r => (time r, volume_usd r)) l))
  = map volume_usd (filter (fun r => (date (time r) =? day)%Z) l).
Proof.
  induction l as [ | r l IH]; simpl; [reflexivity | ].
  destruct (date (time r) =? day)%Z; simpl; now rewrite IH.
Qed.

Lemma series_rows_exists (day : Z) (l : list TimelineRow) :
  existsb (fun '(t, _) => (date t =? day)%Z) (map (fun r => (time r, volume_usd r)) l) = true
  <-> exists r, In r l /\ date (time r) = day.
Proof.
  rewrite existsb_exists. split.
  - intros ([t v] & Hin & Hday). apply in_map_iff in Hin as (r & [= <- <-] & Hin).
    exists r. split; [assumption | now apply Z.eqb_eq].
  - intros (r & Hin & Hday). exists (time r, volume_usd r). split.
    + now apply (in_map (fun r => (time r, volume_usd r))).
    + now apply Z.eqb_eq.
Qed.

Lemma groupby_date_sum_spec (l : list TimelineRow) :
  let daily := groupby_date_sum (map (fun r => (time r, volume_usd r)) l) in
  StronglySorted Z.lt (map fst daily) /\
  forall day total,
    In (day, total) daily <->
    (exists r, In r l /\ date (time r) = day) /\ total = volume_on l day.
Proof.
  cbv zeta. unfold groupby_date_sum.
  assert (Hinc : increasing
            (fold_left (fun acc '(t, v) => add_to (date t) v acc)
                       (map (fun r => (time r, volume_usd r)) l) []))
    by (apply groupby_fold_increasing; constructor).
  assert (Hinc' : increasing
            (map (fun '(d, g) => (d, sumx g))
               (fold_left (fun acc '(t, v) => add_to (date t) v acc)
                          (map (fun r => (time r, volume_usd r)) l) [])))
    by (unfold increasing; rewrite sums_keys; exact Hinc).
  split; [exact Hinc' | ].
  intros day total. rewrite (lookup_In _ day total Hinc'), lookup_sums.
  rewrite lookup_groupby_fold by constructor.
  cbn [lookup orb or_start]. rewrite series_rows_on.
  destruct (existsb _ _) eqn:Hex.
  - apply series_rows_exists in Hex. cbn [option_map].
    rewrite fold_plus_compensated. cbn [group_start sumx compensation].
    fold (volume_on l day). split.
    + intros [= <-]. now split.
    + intros (_ & ->). reflexivity.
  - split; [discriminate | ].
    intros (Hr & _). apply series_rows_exists in Hr. congruence.
Qed.

(** C7: on renderable inputs the pass runs to its end; the daily volume lists
    its dates in strictly increasing order, so each at most once; a date is
    listed exactly if some row of the selected period's timeline falls on it,
    and it is listed with the sum of the volumes of the rows of that date,
    added up in row order as the kernel behind [sum] does it: a missing
    volume adds nothing, and every addition is corrected by the rounding
    error of the one before it. *)
Theorem daily_volume_sums_by_date (fs : FileSystem) (sel : Selection) :
  renderable fs sel ->
  exists d,
    render fs sel = Ok d /\
    StronglySorted Z.lt (map fst (d_daily_volume d)) /\
    (forall day,
       In day (map fst (d_daily_volume d)) <->
       exists r, In r (t_rows (selected_timeline fs sel)) /\ date (time r) = day) /\
    (forall day total,
       In (day, total) (d_daily_volume d) <->
       (exists r, In r (t_rows (selected_timeline fs sel)) /\ date (time r) = day) /\
       total = volume_on (t_rows (selected_timeline fs sel)) day).
Proof.
  intros Hr. destruct (render_ok fs sel Hr) as (d & Hd).
  destruct (render_renderable_inv fs sel d Hr Hd)
    as (_ & _ & _ & _ & _ & Hdaily & _).
  destruct (groupby_date_sum_spec (t_rows (selected_timeline fs sel)))
    as (Hsorted & Hpairs).
  rewrite <- Hdaily in Hsorted, Hpairs.
  exists d. split; [assumption | split; [assumption | split; [ | assumption]]].
  intros day. split.
  - intros Hin. apply in_map_iff in Hin as ([day' total] & <- & Hin).
    now apply Hpairs in Hin.
  - intros Hrow.
    apply (in_map fst _ (day, volume_on (t_rows (selected_timeline fs sel)) day)).
    apply Hpairs. now split.
Qed.

Lemma daily_volume_sums_by_date_sample :
  renderable sample_fs_long Last_Month /\
  (exists d,
    render sample_fs_long Last_Month = Ok d /\
    StronglySorted Z.lt (map fst (d_daily_volume d)) /\
    (forall day,
       In day (map fst (d_daily_volume d)) <->
       exists r, In r (t_rows (selected_timeline sample_fs_long Last_Month)) /\
                 date (time r) = day) /\
    (forall day total,
       In (day, total) (d_daily_volume d) <->
       (exists r, In r (t_rows (selected_timeline sample_fs_long Last_Month)) /\
                  date (time r) = day) /\
       total = volume_on (t_rows (selected_timeline sample_fs_long Last_Month)) day)) /\
  (exists d,
    render sample_fs_long Last_Month = Ok d /\
    d_daily_volume d = [(0%Z, 3.5%float)] /\
    fold_left PrimFloat.add (repeat tenth 35) 0%float = 0x1.c000000000004p+1%float).
Proof.
  split; [exact (sample_fs_long_renderable Last_Month) | split].
  - exact (daily_volume_sums_by_date sample_fs_long Last_Month
             (sample_fs_long_renderable Last_Month)).
  - eexists. split; [vm_compute; reflexivity | ].
    split; vm_compute; reflexivity.
Defined.

(** ** Volatility *)

Lemma pct_change_from_index (prev : float) (s : Series float) :
  map fst (pct_change_from prev s) = map fst s.
Proof.
  revert prev. induction s as [ | [t x] s IH]; intros prev; simpl; [reflexivity | ].
  now rewrite IH.
Qed.

Lemma fillna0_index (s : Series float) : map fst (fillna0 s) = map fst s.
Proof.
  unfold fillna0. rewrite map_map. apply map_ext. now intros [t x].
Qed.


Lemma fill0_not_nan (x : float) : is_nan (fill0 x) = false.
Proof.
  unfold fill0. destruct (is_nan x) eqn:Hx; [reflexivity | exact Hx].
Qed.





Lemma roll_var_loop_length (xs : list float) (window minp ddof n i : nat) (st : VarState) :
  List.length (roll_var_loop xs window minp ddof n i st) = n.
Proof.
  revert i st. induction n as [ | n IH]; intros i st; [reflexivity | ].
  cbn [roll_var_loop]. cbv zeta. cbn [List.length]. now rewrite IH.
Qed.

Lemma slice_empty (a : nat) (l : list float) : slice a a l = [].
Proof. unfold slice. now rewrite Nat.sub_diag. Qed.

Lemma skipn_nth (a : nat) (l : list float) :
  (a < List.length l)%nat -> skipn a l = nth a l nan :: skipn (S a) l.
Proof.
  revert a. induction l as [ | x l IH]; intros a Ha; [simpl in Ha; lia | ].
  destruct a as [ | a]; [reflexivity | ].
  cbn [skipn nth]. apply IH. simpl in Ha. lia.
Qed.

Lemma slice_one (a : nat) (l : list float) :
  (a < List.length l)%nat -> slice a (S a) l = [nth a l nan].
Proof.
  intros Ha. unfold slice. replace (S a - a)%nat with 1%nat by lia.
  now rewrite (skipn_nth a l Ha).
Qed.

Lemma slice_head (a b : nat) (l : list float) :
  (a < b)%nat -> (a < List.length l)%nat ->
  slice a b l = nth a l nan :: slice (S a) b l.
Proof.
  intros Hab Ha. unfold slice. rewrite (skipn_nth a l Ha).
  replace (b - a)%nat with (S (b - S a)) by lia. reflexivity.
Qed.

Lemma slice_last (a b : nat) (l : list float) :
  (a <= b)%nat -> (b < List.length l)%nat ->
  slice a (S b) l = slice a b l ++ [nth b l nan].
Proof.
  intros Hab Hb. unfold slice.
  replace (S b - a)%nat with ((b - a) + 1)%nat by lia.
  rewrite <- (firstn_skipn (b - a) (firstn (b - a + 1) (skipn a l))).
  rewrite firstn_firstn. replace (Nat.min (b - a) (b - a + 1)) with (b - a)%nat by lia.
  f_equal. rewrite skipn_firstn_comm. replace (b - a + 1 - (b - a))%nat with 1%nat by lia.
  rewrite skipn_skipn. replace (b - a + a)%nat with b by lia.
  now rewrite (skipn_nth b l Hb).
Qed.

(** One turn of the loop computes the variables of the row. *)
Lemma roll_var_loop_nth (xs : list float) (window minp ddof : nat) :
  (2 <= window)%nat ->
  forall n i st k,
    (i + n <= List.length xs)%nat ->
    (match i with O => True | S j => st = running_var window xs j end) ->
    (k < n)%nat ->
    nth_error (roll_var_loop xs window minp ddof n i st) k
    = Some (calc_var minp ddof (running_var window xs (i + k))).
Proof.
  intros Hw. induction n as [ | n IH]; intros i st k Hlen Hst Hk; [lia | ].
  cbn [roll_var_loop]. cbv zeta.
  assert (Hstep :
    match i with
    | O => fold_left (fun st v => add_var v st)
             (slice (window_start window i) (window_end i) xs)
             (var_reset (nth (window_start window i) xs nan))
    | S j =>
        if (window_end j <=? window_start window i)%nat
        then fold_left (fun st v => add_var v st)
               (slice (window_start window i) (window_end i) xs)
               (var_reset (nth (window_start window i) xs nan))
        else fold_left (fun st v => add_var v st)
               (slice (window_end j) (window_end i) xs)
               (fold_left (fun st v => remove_var v st)
                  (slice (window_start window j) (window_start window i) xs) st)
    end = running_var window xs i).
  { destruct i as [ | j].
    - unfold window_start, window_end.
      replace (1 - window)%nat with 0%nat by lia.
      rewrite slice_one by lia. reflexivity.
    - subst st. unfold window_start, window_end.
      replace (S j <=? S (S j) - window)%nat with false
        by (symmetry; apply Nat.leb_gt; lia).
      rewrite (slice_one (S j)) by lia. cbn [fold_left running_var].
      destruct (Nat.leb_spec window (S j)) as [Hle | Hgt].
      + replace (S (S j) - window)%nat with (S (S j - window)) by lia.
        rewrite slice_one by lia. reflexivity.
      + replace (S (S j) - window)%nat with 0%nat by lia.
        replace (S j - window)%nat with 0%nat by lia.
        rewrite slice_empty. reflexivity. }
  rewrite Hstep. destruct k as [ | k].
  - cbn [nth_error]. now rewrite Nat.add_0_r.
  - cbn [nth_error]. rewrite (IH (S i) (running_var window xs i) k); [ | lia | reflexivity | lia].
    f_equal. f_equal. f_equal. lia.
Qed.

Lemma roll_var_nth (xs : list float) (window ddof t : nat) :
  (2 <= window)%nat -> (t < List.length xs)%nat ->
  nth_error (roll_var xs window window ddof) t
  = Some (calc_var window ddof (running_var window xs t)).
Proof.
  intros Hw Ht. unfold roll_var.
  replace (Nat.max window 1) with window by lia.
  now rewrite (roll_var_loop_nth xs window window ddof Hw _ 0 _ t) by (trivial || lia).
Qed.

Lemma roll_var_length (xs : list float) (window minp ddof : nat) :
  List.length (roll_var xs window minp ddof) = List.length xs.
Proof. apply roll_var_loop_length. Qed.

Lemma zip_index {A B C : Type} (f : B -> C) (s : list (A * B)) (out : list B) :
  List.length out = List.length s ->
  map fst (map (fun '((t, _), x) => (t, f x)) (combine s out)) = map fst s.
Proof.
  revert out. induction s as [ | [t y] s IH]; intros [ | x out] H;
    try discriminate; [reflexivity | ].
  cbn [combine map fst]. f_equal. apply IH. simpl in H. lia.
Qed.

Lemma zip_values {A B C : Type} (f : B -> C) (s : list (A * B)) (out : list B) :
  List.length out = List.length s ->
  map snd (map (fun '((t, _), x) => (t, f x)) (combine s out)) = map f out.
Proof.
  revert out. induction s as [ | [t y] s IH]; intros [ | x out] H;
    try discriminate; [reflexivity | ].
  cbn [combine map snd]. f_equal. apply IH. simpl in H. lia.
Qed.

Lemma rolling_std_index (window : nat) (s : Series float) :
  map fst (rolling_std window s) = map fst s.
Proof.
  unfold rolling_std. apply zip_index.
  rewrite roll_var_length. unfold values. now rewrite !length_map.
Qed.

Lemma rolling_std_nth (window : nat) (s : Series float) (t : nat) :
  (2 <= window)%nat -> (t < List.length s)%nat ->
  nth_error (values (rolling_std window s)) t
  = Some (zsqrt (calc_var window 1
                   (running_var window (map prep_value (values s)) t))).
Proof.
  intros Hw Ht. unfold rolling_std, values at 1.
  rewrite zip_values
    by (rewrite roll_var_length; unfold values; now rewrite !length_map).
  rewrite nth_error_map, roll_var_nth; [reflexivity | assumption | ].
  unfold values. now rewrite !length_map.
Qed.

(** *** Counting the values of a window *)

Lemma float_of_nat_succ (k : nat) :
  (k < 30)%nat -> (float_of_nat k + 1)%float = float_of_nat (S k).
Proof.
  intros H. do 30 (destruct k as [ | k]; [vm_compute; reflexivity | ]). lia.
Qed.

Lemma float_of_nat_pred (k : nat) :
  (k < 30)%nat -> (float_of_nat (S k) - 1)%float = float_of_nat k.
Proof.
  intros H. do 30 (destruct k as [ | k]; [vm_compute; reflexivity | ]). lia.
Qed.

Lemma float_of_nat_full (k : nat) :
  (k < 30)%nat -> (float_of_nat 30 <=? float_of_nat k)%float = false.
Proof.
  intros H. do 30 (destruct k as [ | k]; [vm_compute; reflexivity | ]). lia.
Qed.

Lemma nobs_add_var (v : float) (st : VarState) :
  nobs (add_var v st) = if (v =? v)%float then (nobs st + 1)%float else nobs st.
Proof. unfold add_var. now destruct (v =? v)%float. Qed.

Lemma nobs_remove_var (v : float) (st : VarState) :
  nobs (remove_var v st) = if (v =? v)%float then (nobs st - 1)%float else nobs st.
Proof.
  unfold remove_var. destruct (v =? v)%float; [ | reflexivity].
  now destruct (nobs st - 1 =? 0)%float.
Qed.

Lemma present_app (l1 l2 : list float) : present (l1 ++ l2) = (present l1 + present l2)%nat.
Proof. unfold present. now rewrite filter_app, length_app. Qed.

Lemma present_cons (x : float) (l : list float) :
  present (x :: l) = (present [x] + present l)%nat.
Proof. exact (present_app [x] l). Qed.

Lemma present_length (l : list float) : (present l <= List.length l)%nat.
Proof. apply filter_length_le. Qed.

Lemma slice_length (a b : nat) (l : list float) : (List.length (slice a b l) <= b - a)%nat.
Proof. unfold slice. rewrite length_firstn. lia. Qed.

(** The kernel's count is the number of values of the window that are not
    missing. *)
Lemma present_one (x : float) : present [x] = if (x =? x)%float then 1%nat else 0%nat.
Proof. unfold present. cbn [filter]. now destruct (x =? x)%float. Qed.

Lemma nobs_running_var (xs : list float) (t : nat) :
  (t < List.length xs)%nat ->
  nobs (running_var 30 xs t) = float_of_nat (present (window_at 30 xs t)).
Proof.
  induction t as [ | t IH]; intros Ht.
  - unfold window_at. replace (1 - 30)%nat with 0%nat by lia.
    rewrite slice_one by assumption. cbn [running_var].
    rewrite nobs_add_var, present_one. cbn [var_reset nobs].
    destruct (nth 0 xs nan =? nth 0 xs nan)%float; vm_compute; reflexivity.
  - specialize (IH ltac:(lia)). cbn [running_var].
    rewrite nobs_add_var. unfold window_at in *.
    destruct (Nat.leb_spec 30 (S t)) as [Hle | Hgt].
    + rewrite nobs_remove_var, IH.
      rewrite (slice_head (S t - 30) (S t)) by lia.
      replace (S (S t) - 30)%nat with (S (S t - 30)) by lia.
      rewrite (slice_last (S (S t - 30)) (S t)) by lia.
      pose proof (present_length (slice (S (S t - 30)) (S t) xs)) as Hp.
      pose proof (slice_length (S (S t - 30)) (S t) xs) as Hl.
      rewrite present_app, present_cons, !present_one.
      set (pm := present (slice (S (S t - 30)) (S t) xs)) in *.
      destruct (nth (S t - 30) xs nan =? nth (S t - 30) xs nan)%float;
        destruct (nth (S t) xs nan =? nth (S t) xs nan)%float;
        cbn [Nat.add];
        rewrite ?float_of_nat_pred, ?Nat.add_0_r by lia;
        rewrite ?Nat.add_1_r, ?float_of_nat_succ by lia; reflexivity.
    + rewrite IH.
      replace (S t - 30)%nat with 0%nat by lia.
      replace (S (S t) - 30)%nat with 0%nat by lia.
      rewrite (slice_last 0 (S t)) by lia.
      pose proof (present_length (slice 0 (S t) xs)) as Hp.
      pose proof (slice_length 0 (S t) xs) as Hl.
      rewrite present_app, present_one.
      set (pm := present (slice 0 (S t) xs)) in *.
      destruct (nth (S t) xs nan =? nth (S t) xs nan)%float;
        rewrite ?Nat.add_0_r, ?Nat.add_1_r, ?float_of_nat_succ by lia; reflexivity.
Qed.

Lemma calc_var_short (st : VarState) (k : nat) :
  nobs st = float_of_nat k -> (k < 30)%nat -> calc_var 30 1 st = nan.
Proof.
  intros Hn Hk. unfold calc_var. rewrite Hn, float_of_nat_full by assumption.
  reflexivity.
Qed.


Lemma prep_value_present (x : float) :
  (prep_value x =? prep_value x)%float = is_finite x.
Proof.
  unfold prep_value, is_finite. destruct (is_infinity x) eqn:Hinf.
  - now rewrite orb_true_r.
  - rewrite orb_false_r. unfold is_nan. now rewrite negb_involutive.
Qed.

Lemma finite_present (l : list float) : present (map prep_value l) = finite_count l.
Proof.
  unfold present, finite_count. induction l as [ | x l IH]; [reflexivity | ].
  cbn [map filter]. rewrite prep_value_present.
  destruct (is_finite x); cbn [List.length]; now rewrite IH.
Qed.

Lemma window_at_map (f : float -> float) (n : nat) (xs : list float) (t : nat) :
  window_at n (map f xs) t = map f (window_at n xs t).
Proof. unfold window_at, slice. now rewrite skipn_map, firstn_map. Qed.

Lemma finite_count_length (l : list float) : (finite_count l <= List.length l)%nat.
Proof. apply filter_length_le. Qed.

Lemma window_at_length (n : nat) (xs : list float) (t : nat) :
  (List.length (window_at n xs t) <= Nat.min n (S t))%nat.
Proof. unfold window_at. pose proof (slice_length (S t - n) (S t) xs). lia. Qed.

(** The volatility of a row whose window holds fewer than thirty finite
    values is missing. *)
Lemma rolling_std_missing (s : Series float) (t : nat) :
  (t < List.length s)%nat ->
  (finite_count (window_at 30 (values s) t) < 30)%nat ->
  nth_error (values (rolling_std 30 s)) t = Some nan.
Proof.
  intros Ht Hfew. rewrite rolling_std_nth by (assumption || lia).
  rewrite (calc_var_short _ (finite_count (window_at 30 (values s) t)));
    [reflexivity | | assumption].
  rewrite nobs_running_var by (unfold values; now rewrite !length_map).
  now rewrite window_at_map, finite_present.
Qed.

Lemma rolling_std_early (s : Series float) (t : nat) :
  (t < List.length s)%nat -> (S t < 30)%nat ->
  nth_error (values (rolling_std 30 s)) t = Some nan.
Proof.
  intros Ht Hearly. apply rolling_std_missing; [assumption | ].
  pose proof (finite_count_length (window_at 30 (values s) t)).
  pose proof (window_at_length 30 (values s) t). lia.
Qed.


Lemma render_volatility (fs : FileSystem) (sel : Selection) (d : Dashboard) :
  render fs sel = Ok d ->
  d_pct_change d = pct_change_of (d_equity d) /\
  d_vol_rolling d = vol_rolling_of (d_pct_change d).
Proof.
  unfold render. rewrite period_options_get. cbn [bind]. intros H.
  apply bind_ok_inv in H as ([summary_df timelines] & _ & H).
  do 13 (let a := fresh "a" in apply bind_ok_inv in H as (a & _ & H)).
  injection H as <-. now split.
Qed.





(** * Further properties of the script *)

(** ** The trim and the loader *)

Lemma from_label_found (label : Timestamp) (l : list TimelineRow) (x : TimelineRow) :
  In x l -> time x = label ->
  exists r rest, from_label label l = r :: rest /\ time r = label.
Proof.
  induction l as [ | a l IH]; simpl; [tauto | ].
  intros Hin Hx. destruct (Z.eqb_spec (time a) label) as [Ha | Ha]; [eauto | ].
  destruct Hin as [<- | Hin]; [congruence | now apply IH].
Qed.

Lemma from_first_positive_incl (l : list TimelineRow) (x : TimelineRow) :
  In x (from_first_positive l) -> In x l.
Proof.
  destruct (from_first_positive_split l) as (removed & Hsplit & _).
  intros Hin. rewrite Hsplit. apply in_or_app. now right.
Qed.

(** The label the loader slices from is the timestamp of a row. *)
Lemma slice_label_found (r0 : TimelineRow) (l : list TimelineRow) :
  exists x, In x (r0 :: l) /\
            time x = match from_first_positive (r0 :: l) with
                     | [] => time r0
                     | r :: _ => time r
                     end.
Proof.
  destruct (from_first_positive (r0 :: l)) as [ | r rest] eqn:Hffp.
  - exists r0. split; [now left | reflexivity].
  - exists r. split; [ | reflexivity].
    apply from_first_positive_incl. rewrite Hffp. now left.
Qed.

(** A label met again after the run that starts the slice is met twice. *)
Lemma repeated_label_not_unique (label : Timestamp) (l : list TimelineRow) :
  existsb (fun r => (time r =? label)%Z) (after_run label (from_label label l)) = true ->
  ~ NoDup (map time l).
Proof.
  intros Hex Hnd. apply existsb_exists in Hex as (x & Hin & Hx).
  apply Z.eqb_eq in Hx.
  destruct (from_label_suffix label l) as (removed & Hsplit).
  rewrite Hsplit, map_app in Hnd. apply NoDup_app_r in Hnd.
  destruct (from_label label l) as [ | r kept] eqn:Hkept; [destruct Hin | ].
  assert (Hr : time r = label).
  { destruct (from_label_found label l x) as (r' & rest & Hfl & Hr').
    - rewrite Hsplit. apply in_or_app. right. now apply after_run_incl in Hin.
    - exact Hx.
    - rewrite Hkept in Hfl. now injection Hfl as -> _. }
  cbn [after_run] in Hin. rewrite <- Hr, Z.eqb_refl in Hin. rewrite Hr in Hin.
  apply after_run_incl in Hin.
  cbn [map] in Hnd. inversion Hnd as [ | t ts Hnotin _].
  apply Hnotin. rewrite Hr, <- Hx. now apply in_map.
Qed.

Lemma trim_warmup_nonempty (df df' : TimelineFrame) :
  trim_warmup df = Ok df' -> t_rows df <> [] /\ t_rows df' <> [].
Proof.
  unfold trim_warmup, getitem, require.
  destruct (has_column (t_columns df) "equity"); cbn [bind]; [ | discriminate].
  destruct (t_rows df) as [ | r0 l] eqn:Hrows; [discriminate | ].
  rewrite idxmax_positive. cbn [bind]. unfold truthy, loc_from. rewrite Hrows.
  destruct (slice_label_found r0 l) as (x & Hin & Hx).
  destruct (from_label_found _ _ x Hin Hx) as (r & rest & Hfl & _).
  rewrite Hfl.
  destruct (existsb _ _); [discriminate | ].
  intros [= <-]. split; discriminate.
Qed.

(** X1.  Every outcome of the trim of the loader.  It returns only for a
    table with an equity column and a row, and what it returns is never
    empty: it starts with a row that bears the timestamp of the first row with
    positive equity, and is the whole table when no row has positive equity.
    It raises KeyError for the equity column exactly when the column is
    absent, ValueError only for a table with no row, a non-unique-label error
    only when two rows share a timestamp, and nothing else. *)
Theorem trim_warmup_outcomes (df : TimelineFrame) :
  match trim_warmup df with
  | Ok df' =>
      has_column (t_columns df) "equity" = true /\
      exists r rest,
        t_rows df' = r :: rest /\
        match from_first_positive (t_rows df) with
        | p :: _ => time r = time p
        | [] => t_rows df' = t_rows df
        end
  | Raise (KeyError c) =>
      c = "equity" /\ has_column (t_columns df) "equity" = false
  | Raise ValueError =>
      has_column (t_columns df) "equity" = true /\ t_rows df = []
  | Raise (NonUniqueLabel label) =>
      has_column (t_columns df) "equity" = true /\ ~ NoDup (map time (t_rows df))
  | Raise _ => False
  end.
Proof.
  unfold trim_warmup, getitem, require.
  destruct (has_column (t_columns df) "equity"); cbn [bind]; [ | now split].
  destruct (t_rows df) as [ | r0 l] eqn:Hrows; [now split | ].
  rewrite idxmax_positive. cbn [bind]. unfold truthy, loc_from. rewrite Hrows.
  destruct (existsb _ _) eqn:Hex.
  - split; [reflexivity | ]. exact (repeated_label_not_unique _ _ Hex).
  - split; [reflexivity | ]. unfold t_rows.
    destruct (from_first_positive (r0 :: l)) as [ | p rest] eqn:Hffp.
    + rewrite from_label_head. now exists r0, l.
    + destruct (from_label_found (time p) (r0 :: l) p) as (r & kept & Hfl & Hr).
      * apply from_first_positive_incl. rewrite Hffp. now left.
      * reflexivity.
      * rewrite Hfl. now exists r, kept.
Qed.

Lemma trimmed_well_formed (df : TimelineFrame) :
  timeline_well_formed df -> timeline_well_formed (trimmed df).
Proof.
  intros (Hcol & Hne & Hnd). unfold trimmed.
  split; [exact Hcol | ]. cbn [t_rows].
  destruct (existsb (fun r => positive (equity r)) (t_rows df)) eqn:Hex;
    [ | now split].
  destruct (from_first_positive_split (t_rows df)) as (removed & Hsplit & _).
  split.
  - intros Hnil. apply from_first_positive_nil in Hnil. congruence.
  - rewrite Hsplit, map_app in Hnd. now apply NoDup_app_r in Hnd.
Qed.

Lemma from_first_positive_fixed (l : list TimelineRow) :
  from_first_positive (from_first_positive l) = from_first_positive l.
Proof.
  induction l as [ | a l IH]; [reflexivity | ].
  cbn [from_first_positive]. destruct (positive (equity a)) eqn:Ha; [ | exact IH].
  cbn [from_first_positive]. now rewrite Ha.
Qed.

(** X2.  Trimming is done once and for all: the trim of a well-formed
    timeline returns a table that the trim returns as it is. *)
Theorem trim_warmup_twice (df : TimelineFrame) :
  timeline_well_formed df ->
  exists df',
    trim_warmup df = Ok df' /\ trim_warmup df' = Ok df'.
Proof.
  intros Hwf. exists (trimmed df). split; [now apply trim_warmup_eq | ].
  rewrite (trim_warmup_eq _ (trimmed_well_formed _ Hwf)). f_equal.
  destruct df as [cols l]. unfold trimmed. cbn [t_rows t_columns]. f_equal.
  destruct (existsb (fun r => positive (equity r)) l) eqn:Hex; cbn [t_rows].
  - assert (Hex' : existsb (fun r => positive (equity r)) (from_first_positive l) = true).
    { destruct (existsb _ (from_first_positive l)) eqn:E; [reflexivity | ].
      apply from_first_positive_nil in E. rewrite from_first_positive_fixed in E.
      apply from_first_positive_nil in E. congruence. }
    rewrite Hex'. apply from_first_positive_fixed.
  - now rewrite Hex.
Qed.

Lemma trim_warmup_twice_sample :
  timeline_well_formed sample_timeline /\
  exists df',
    trim_warmup sample_timeline = Ok df' /\ trim_warmup df' = Ok df'.
Proof.
  split; [exact sample_timeline_well_formed | ].
  exact (trim_warmup_twice sample_timeline sample_timeline_well_formed).
Defined.

(** X4.  What a successful load guarantees.  The four files exist; the
    dictionary of timelines has the three periods as its keys, in order; for
    every entry of the selector the two dictionary lookups of the pass succeed
    and yield the trim of that period's file, which has a row. *)
Theorem load_backtest_data_success (fs : FileSystem) (summary_df : SummaryFrame)
    (timelines : list (string * TimelineFrame)) :
  load_backtest_data fs = Ok (summary_df, timelines) ->
  (forall path, In path expected_files -> is_file fs path = true) /\
  map fst timelines = periods /\
  forall sel,
    dict_get period_options (selected_period_name sel) = Ok (period_id sel) /\
    exists timeline_df,
      dict_get timelines (period_id sel) = Ok timeline_df /\
      trim_warmup (timeline_at fs (timeline_path (period_id sel))) = Ok timeline_df /\
      t_rows timeline_df <> [].
Proof.
  intros H.
  assert (Hsummary : is_file fs summary_path = true).
  { unfold load_backtest_data, read_csv_summary in H.
    destruct (is_file fs summary_path); [reflexivity | discriminate]. }
  apply load_backtest_data_inv in H as (_ & _ & _ & H).
  apply load_timelines_inv in H as (Hkeys & Hall).
  split; [ | split; [exact Hkeys | ]].
  - intros path [<- | Hin]; [exact Hsummary | ].
    apply in_map_iff in Hin as (p & <- & Hp). rewrite <- Hkeys in Hp.
    apply dict_get_keys in Hp as (df & Hdf). apply dict_get_In in Hdf.
    now apply Hall in Hdf.
  - intros sel. split; [apply period_options_get | ].
    destruct (dict_get_keys timelines (period_id sel)) as (df & Hdf).
    { rewrite Hkeys. apply period_id_In. }
    exists df. split; [exact Hdf | ].
    apply dict_get_In in Hdf. destruct (Hall _ _ Hdf) as (_ & Htrim).
    split; [exact Htrim | ]. now apply trim_warmup_nonempty in Htrim.
Qed.

Lemma load_backtest_data_success_sample :
  load_backtest_data sample_fs
  = Ok (sample_summary, map (fun p => (p, trimmed sample_timeline)) periods) /\
  (forall path, In path expected_files -> is_file sample_fs path = true) /\
  map fst (map (fun p => (p, trimmed sample_timeline)) periods) = periods /\
  forall sel,
    dict_get period_options (selected_period_name sel) = Ok (period_id sel) /\
    exists timeline_df,
      dict_get (map (fun p => (p, trimmed sample_timeline)) periods) (period_id sel)
      = Ok timeline_df /\
      trim_warmup (timeline_at sample_fs (timeline_path (period_id sel)))
      = Ok timeline_df /\
      t_rows timeline_df <> [].
Proof.
  assert (H : load_backtest_data sample_fs
              = Ok (sample_summary, map (fun p => (p, trimmed sample_timeline)) periods))
    by (vm_compute; reflexivity).
  split; [exact H | ].
  exact (load_backtest_data_success sample_fs sample_summary _ H).
Defined.

(** ** Forward filling *)

Lemma positive_not_nan (e : float) : positive e = true -> is_nan e = false.
Proof.
  unfold positive, is_nan. rewrite ltb_spec, eqb_spec.
  destruct (Prim2SF e) as [s | s | | s m x]; try destruct s; cbn;
    try discriminate; try reflexivity.
  intros _. unfold SFeqb, SFcompare.
  now rewrite Z.compare_refl, Pos.compare_cont_refl.
Qed.

Lemma ffill_from_keeps (last : float) (s : Series float) (i : nat) (x : float) :
  nth_error (values s) i = Some x -> is_nan x = false ->
  nth_error (values (ffill_from last s)) i = Some x.
Proof.
  revert last i. induction s as [ | [t y] s IH]; intros last i Hi Hx;
    [destruct i; discriminate | ].
  destruct i as [ | i].
  - injection Hi as ->. cbn [ffill_from]. now rewrite Hx.
  - cbn [ffill_from]. destruct (is_nan y); cbn [values map nth_error]; now apply IH.
Qed.

Lemma ffill_from_gap (last : float) (s : Series float) (i : nat) :
  (i < List.length s)%nat ->
  (forall k x, (k <= i)%nat -> nth_error (values s) k = Some x -> is_nan x = true) ->
  nth_error (values (ffill_from last s)) i = Some last.
Proof.
  revert last i. induction s as [ | [t y] s IH]; intros last i Hi Hgap;
    [simpl in Hi; lia | ].
  assert (Hy : is_nan y = true) by (apply (Hgap 0%nat); [lia | reflexivity]).
  cbn [ffill_from]. rewrite Hy. destruct i as [ | i]; [reflexivity | ].
  cbn [values map nth_error]. apply IH; [simpl in Hi; lia | ].
  intros k x Hk Hx. apply (Hgap (S k)); [lia | exact Hx].
Qed.

Lemma ffill_from_carries (last : float) (s : Series float) (j i : nat) (y : float) :
  (j < i)%nat -> (i < List.length s)%nat ->
  nth_error (values s) j = Some y -> is_nan y = false ->
  (forall k x, (j < k <= i)%nat -> nth_error (values s) k = Some x -> is_nan x = true) ->
  nth_error (values (ffill_from last s)) i = Some y.
Proof.
  revert last j i. induction s as [ | [t z] s IH]; intros last j i Hji Hi Hj Hy Hgap;
    [simpl in Hi; lia | ].
  destruct i as [ | i]; [lia | ]. simpl in Hi.
  destruct j as [ | j].
  - injection Hj as ->. cbn [ffill_from]. rewrite Hy. cbn [values map nth_error].
    apply ffill_from_gap; [lia | ].
    intros k x Hk Hx. apply (Hgap (S k)); [lia | exact Hx].
  - cbn [ffill_from].
    destruct (is_nan z); cbn [values map nth_error];
      (apply (IH _ j); [lia | lia | exact Hj | exact Hy | ]);
      intros k x Hk Hx; apply (Hgap (S k)); try lia; exact Hx.
Qed.

(** X5.  What forward filling does to a series.  It keeps the timestamps
    and every value that is present; a missing value takes the nearest value
    present before it; the values before the first one present stay
    missing. *)
Theorem ffill_fills_forward (s : Series float) :
  map fst (ffill s) = map fst s /\
  (forall i x,
     nth_error (values s) i = Some x -> is_nan x = false ->
     nth_error (values (ffill s)) i = Some x) /\
  (forall j i y,
     (j < i)%nat -> (i < List.length s)%nat ->
     nth_error (values s) j = Some y -> is_nan y = false ->
     (forall k x, (j < k <= i)%nat -> nth_error (values s) k = Some x ->
                  is_nan x = true) ->
     nth_error (values (ffill s)) i = Some y) /\
  (forall i,
     (i < List.length s)%nat ->
     (forall k x, (k <= i)%nat -> nth_error (values s) k = Some x -> is_nan x = true) ->
     nth_error (values (ffill s)) i = Some nan).
Proof.
  unfold ffill. split; [apply ffill_from_index | split; [ | split]].
  - intros i x. apply ffill_from_keeps.
  - intros j i y. apply ffill_from_carries.
  - intros i. apply ffill_from_gap.
Qed.

Lemma ffill_fills_forward_sample :
  values (ffill gappy_series) = [nan; 5; 5; 5; 7]%float /\
  nth_error (values (ffill gappy_series)) 3 = Some 5%float.
Proof.
  split; [vm_compute; reflexivity | ].
  apply (proj1 (proj2 (proj2 (ffill_fills_forward gappy_series))) 1%nat 3%nat).
  - lia.
  - simpl. lia.
  - reflexivity.
  - reflexivity.
  - intros k x Hk Hx.
    assert (Hcase : k = 2%nat \/ k = 3%nat) by lia.
    destruct Hcase as [-> | ->]; injection Hx as <-; reflexivity.
Defined.

Lemma ffill_from_twice (last : float) (s : Series float) :
  ffill_from last (ffill_from last s) = ffill_from last s.
Proof.
  revert last. induction s as [ | [t x] s IH]; intros last; [reflexivity | ].
  cbn [ffill_from]. destruct (is_nan x) eqn:Hx; cbn [ffill_from].
  - destruct (is_nan last); now rewrite IH.
  - now rewrite Hx, IH.
Qed.

(** X6.  Forward filling an already forward-filled series changes
    nothing. *)
Theorem ffill_twice (s : Series float) : ffill (ffill s) = ffill s.
Proof. unfold ffill. apply ffill_from_twice. Qed.

Lemma ffill_from_present (last : float) (s : Series float) (x : float) :
  is_nan last = false -> In x (values (ffill_from last s)) -> is_nan x = false.
Proof.
  revert last. induction s as [ | [t y] s IH]; intros last Hlast; [intros [] | ].
  cbn [ffill_from]. destruct (is_nan y) eqn:Hy; cbn [values map In snd].
  - intros [<- | Hin]; [exact Hlast | exact (IH _ Hlast Hin)].
  - intros [<- | Hin]; [exact Hy | exact (IH _ Hy Hin)].
Qed.

Lemma find_first_positive (l : list TimelineRow) :
  find (fun r => positive (equity r)) l
  = match from_first_positive l with
    | [] => None
    | r :: _ => Some r
    end.
Proof.
  induction l as [ | a l IH]; simpl; [reflexivity | ].
  destruct (positive (equity a)); [reflexivity | exact IH].
Qed.

(** X7.  After the warm-up trim the equity curve has no gap: on renderable
    inputs whose selected timeline has a row with positive equity, the curve
    starts at the first such row of the file, with the timestamp and the
    positive equity of that row, and none of its values is missing. *)
Theorem equity_curve_has_no_gap (fs : FileSystem) (sel : Selection) :
  renderable fs sel ->
  (exists r, In r (t_rows (timeline_at fs (timeline_path (period_id sel)))) /\
             positive (equity r) = true) ->
  exists d p,
    render fs sel = Ok d /\
    find (fun r => positive (equity r))
         (t_rows (timeline_at fs (timeline_path (period_id sel)))) = Some p /\
    nth_error (d_equity d) 0 = Some (time p, equity p) /\
    positive (equity p) = true /\
    forall x, In x (values (d_equity d)) -> is_nan x = false.
Proof.
  intros Hr (r & Hin & Hpos). destruct (render_ok fs sel Hr) as (d & Hd).
  destruct (render_renderable_inv fs sel d Hr Hd) as (_ & Heq & _).
  assert (Hex : existsb (fun r => positive (equity r))
                  (t_rows (timeline_at fs (timeline_path (period_id sel)))) = true)
    by (apply existsb_exists; eauto).
  unfold selected_timeline, trimmed in Heq. cbn [t_rows] in Heq. rewrite Hex in Heq.
  rewrite find_first_positive.
  destruct (from_first_positive _) as [ | p rest] eqn:Hffp.
  { apply from_first_positive_nil in Hffp. congruence. }
  pose proof (from_first_positive_head _ _ _ Hffp) as Hp.
  pose proof (positive_not_nan _ Hp) as Hnan.
  exists d, p. split; [exact Hd | split; [reflexivity | ]].
  rewrite Heq. unfold ffill. cbn [map ffill_from]. rewrite Hnan.
  split; [reflexivity | split; [exact Hp | ]].
  cbn [values map In snd]. intros x [<- | Hx]; [exact Hnan | ].
  exact (ffill_from_present _ _ _ Hnan Hx).
Qed.

Lemma equity_curve_has_no_gap_sample :
  renderable sample_fs Last_Month /\
  exists d p,
    render sample_fs Last_Month = Ok d /\
    find (fun r => positive (equity r))
         (t_rows (timeline_at sample_fs (timeline_path (period_id Last_Month))))
    = Some p /\
    nth_error (d_equity d) 0 = Some (time p, equity p) /\
    positive (equity p) = true /\
    forall x, In x (values (d_equity d)) -> is_nan x = false.
Proof.
  split; [exact (sample_fs_renderable Last_Month) | ].
  apply (equity_curve_has_no_gap sample_fs Last_Month (sample_fs_renderable Last_Month)).
  exists (bar (2 * minute) 1000 3 1 true false). split; [ | reflexivity].
  right. right. now left.
Defined.

(** ** Markers, trade log table and signals *)

Lemma select_by_column (f : TimelineRow -> bool) (l : list TimelineRow) :
  select l (values (map (fun r => (time r, f r)) l)) = filter f l.
Proof.
  unfold values.
  induction l as [ | a l IH]; simpl; [reflexivity | ].
  destruct (f a); now rewrite IH.
Qed.

Lemma filter_of_filter (f g : TimelineRow -> bool) (l : list TimelineRow) :
  (forall r, f r = true -> g r = true) ->
  filter f (filter g l) = filter f l.
Proof.
  intros Himp. induction l as [ | a l IH]; simpl; [reflexivity | ].
  destruct (g a) eqn:Hg; simpl.
  - now rewrite IH.
  - destruct (f a) eqn:Hf; [ | exact IH].
    apply Himp in Hf. congruence.
Qed.

Lemma boolean_index_or (df : TimelineFrame) (f g : TimelineRow -> bool) :
  boolean_index df (series_or (map (fun r => (time r, f r)) (t_rows df))
                              (map (fun r => (time r, g r)) (t_rows df)))
  = {| t_columns := t_columns df;
       t_rows := filter (fun r => f r || g r) (t_rows df) |}.
Proof. unfold boolean_index. now rewrite select_filter. Qed.

Lemma boolean_index_column (cols : list string) (l : list TimelineRow)
    (f : TimelineRow -> bool) :
  boolean_index {| t_columns := cols; t_rows := l |} (map (fun r => (time r, f r)) l)
  = {| t_columns := cols; t_rows := filter f l |}.
Proof. unfold boolean_index. cbn [t_rows t_columns]. now rewrite select_by_column. Qed.

Lemma trades_chart_eq (df : TimelineFrame) (curve : Series float) :
  has_column (t_columns df) "equity" = true ->
  has_column (t_columns df) "is_entry" = true ->
  has_column (t_columns df) "is_exit" = true ->
  trades_chart df curve =
  Ok (match filter flagged (t_rows df) with
      | [] => None
      | _ => Some {| tc_equity := curve;
                     tc_entries := markers (filter is_entry (t_rows df));
                     tc_exits := markers (filter is_exit (t_rows df)) |}
      end).
Proof.
  intros Heq Hen Hex. unfold trades_chart.
  rewrite (getitem_ok _ _ _ Hen), (getitem_ok _ _ _ Hex). cbn [bind]. cbv zeta.
  rewrite !boolean_index_or.
  change (filter (fun r => is_entry r || is_exit r) (t_rows df))
    with (filter flagged (t_rows df)).
  unfold empty at 1. cbn [t_rows].
  destruct (filter flagged (t_rows df)) as [ | r0 l0] eqn:Hflagged; [reflexivity | ].
  rewrite <- Hflagged.
  unfold getitem. cbn [t_columns t_rows].
  rewrite (require_ok _ _ Hen), (require_ok _ _ Hex). cbn [bind].
  rewrite !boolean_index_column.
  rewrite (filter_of_filter is_entry flagged)
    by (intros r Hr; unfold flagged; now rewrite Hr).
  rewrite (filter_of_filter is_exit flagged)
    by (intros r Hr; unfold flagged; rewrite Hr; apply orb_true_r).
  unfold empty, markers. cbn [t_rows t_columns]. rewrite (require_ok _ _ Heq).
  destruct (filter is_entry (t_rows df)) as [ | e1 es];
    destruct (filter is_exit (t_rows df)) as [ | x1 xs];
    reflexivity.
Qed.

(** What a finished pass on renderable inputs has drawn of the markers and
    of the signals. *)
Lemma render_renderable_charts (fs : FileSystem) (sel : Selection) (d : Dashboard) :
  renderable fs sel -> render fs sel = Ok d ->
  let l := t_rows (selected_timeline fs sel) in
  d_trades_chart d =
    match filter flagged l with
    | [] => None
    | _ => Some {| tc_equity := d_equity d;
                   tc_entries := markers (filter is_entry l);
                   tc_exits := markers (filter is_exit l) |}
    end /\
  d_signals d = (map (fun r => (time r, equity r)) l,
                 fillna0 (map (fun r => (time r, signal r)) l)).
Proof.
  intros Hr H. cbv zeta. pose proof (renderable_load fs sel Hr) as Hload.
  destruct Hr as (_ & Htl & _ & Htcols & _ & _).
  assert (Heq : has_column (t_columns (selected_timeline fs sel)) "equity" = true).
  { apply (Htl (period_id sel) (period_id_In sel)). }
  assert (Hc : forall c, In c selected_timeline_columns ->
                         has_column (t_columns (selected_timeline fs sel)) c = true).
  { intros c Hin. apply (schema_column _ _ c Htcols Hin). }
  unfold render in H. rewrite Hload, period_options_get in H. cbn [bind] in H.
  rewrite renderable_timeline in H. cbn [bind] in H.
  apply bind_ok_inv in H as (period_summary & _ & H).
  apply bind_ok_inv in H as (capital & _ & H).
  apply bind_ok_inv in H as (equity_col & Hcol & H). get_inv Hcol.
  apply bind_ok_inv in H as (header & _ & H).
  apply bind_ok_inv in H as (metrics & _ & H).
  apply bind_ok_inv in H as (daily & _ & H).
  apply bind_ok_inv in H as (raw & Hraw & H). get_inv Hraw.
  apply bind_ok_inv in H as (sig & Hsig & H). get_inv Hsig.
  apply bind_ok_inv in H as (chart & Hchart & H).
  apply bind_ok_inv in H as (log & _ & H).
  apply bind_ok_inv in H as (table & _ & H).
  apply bind_ok_inv in H as (comparison & _ & H).
  injection H as <-. cbn [d_trades_chart d_signals d_equity].
  rewrite trades_chart_eq in Hchart
    by (first [exact Heq | apply Hc; simpl; tauto]).
  injection Hchart as <-. now split.
Qed.

(** X8.  The chart of entry and exit markers.  On renderable inputs the
    chart is drawn exactly when the trade log table is shown, that is when
    some row of the timeline has a flag set; it then carries the equity curve,
    one entry marker for each row with the entry flag and one exit marker for
    each row with the exit flag, at the timestamp and the recorded equity of
    that row, and the trace of a kind of marker is left out when there is
    none of that kind. *)
Theorem trades_chart_markers (fs : FileSystem) (sel : Selection) :
  renderable fs sel ->
  exists d,
    render fs sel = Ok d /\
    (d_trades_chart d = None <-> d_trade_log_table d = None) /\
    (d_trades_chart d = None <->
     forall r, In r (t_rows (selected_timeline fs sel)) ->
               is_entry r = false /\ is_exit r = false) /\
    forall chart,
      d_trades_chart d = Some chart ->
      tc_equity chart = d_equity d /\
      tc_entries chart = markers (filter is_entry (t_rows (selected_timeline fs sel))) /\
      tc_exits chart = markers (filter is_exit (t_rows (selected_timeline fs sel))).
Proof.
  intros Hr. destruct (render_ok fs sel Hr) as (d & Hd).
  destruct (render_renderable_charts fs sel d Hr Hd) as (Hchart & _).
  destruct (render_renderable_inv fs sel d Hr Hd)
    as (_ & _ & _ & _ & _ & _ & Hlog & Htable & _).
  rewrite Hlog in Htable. cbn [t_rows] in Htable.
  exists d. split; [exact Hd | ]. rewrite Hchart, Htable.
  destruct (filter flagged (t_rows (selected_timeline fs sel))) as [ | r0 l0] eqn:Hfl.
  - split; [tauto | split].
    + split; [intros _ | reflexivity]. intros r Hin.
      destruct (flagged r) eqn:Hr0.
      * assert (Hin' : In r (filter flagged (t_rows (selected_timeline fs sel))))
          by (apply filter_In; now split).
        rewrite Hfl in Hin'. destruct Hin'.
      * unfold flagged in Hr0. now apply orb_false_elim in Hr0.
    + discriminate.
  - split; [split; discriminate | split].
    + split; [discriminate | ]. intros Hnone. exfalso.
      assert (Hin : In r0 (filter flagged (t_rows (selected_timeline fs sel))))
        by (rewrite Hfl; now left).
      apply filter_In in Hin as (Hin & Hflag).
      destruct (Hnone _ Hin) as (Hen & Hex). unfold flagged in Hflag.
      rewrite Hen, Hex in Hflag. discriminate.
    + intros chart [= <-]. now repeat split.
Qed.

Lemma trades_chart_markers_sample :
  renderable sample_fs Last_Month /\
  exists d,
    render sample_fs Last_Month = Ok d /\
    (d_trades_chart d = None <-> d_trade_log_table d = None) /\
    (d_trades_chart d = None <->
     forall r, In r (t_rows (selected_timeline sample_fs Last_Month)) ->
               is_entry r = false /\ is_exit r = false) /\
    forall chart,
      d_trades_chart d = Some chart ->
      tc_equity chart = d_equity d /\
      tc_entries chart
      = markers (filter is_entry (t_rows (selected_timeline sample_fs Last_Month))) /\
      tc_exits chart
      = markers (filter is_exit (t_rows (selected_timeline sample_fs Last_Month))).
Proof.
  split; [exact (sample_fs_renderable Last_Month) | ].
  exact (trades_chart_markers sample_fs Last_Month (sample_fs_renderable Last_Month)).
Defined.

(** X9.  The table of the trade log never fails, whatever columns the
    timeline has.  For a trade log without rows nothing is shown but the
    note; otherwise the table has the rows of the trade log and, without
    repetition, exactly the display columns that the timeline has, which are
    all the display columns, in display order, when the timeline has them
    all. *)
Theorem trade_log_table_never_fails (trade_log : TimelineFrame) :
  exists table,
    trade_log_table_of trade_log = Ok table /\
    (table = None <-> t_rows trade_log = []) /\
    forall shown,
      table = Some shown ->
      t_rows shown = t_rows trade_log /\
      NoDup (t_columns shown) /\
      (forall c, In c (t_columns shown) <->
                 In c display_cols /\ has_column (t_columns trade_log) c = true) /\
      (forallb (has_column (t_columns trade_log)) display_cols = true ->
       t_columns shown = display_cols).
Proof.
  rewrite trade_log_table_of_eq. eexists. split; [reflexivity | ].
  destruct (t_rows trade_log) as [ | r l].
  - split; [tauto | discriminate].
  - split; [split; discriminate | ].
    intros shown [= <-]. cbn [t_rows t_columns]. unfold available_cols.
    split; [reflexivity | split; [ | split]].
    + apply NoDup_filter. unfold display_cols. solve_nodup.
    + intros c. apply filter_In.
    + intros Hall. rewrite forallb_forall in Hall.
      apply forallb_filter_id. now apply forallb_forall.
Qed.

(** X10.  Every series of the page is drawn against the index of the
    timeline: on renderable inputs the equity curve, the cumulative PnL, the
    percent change, the rolling volatility, the recorded equity and the
    signals have one value for each row of the selected period's trimmed
    timeline, under that row's timestamp; the signals have no missing value
    and are the recorded signals wherever these are present. *)
Theorem series_share_the_index (fs : FileSystem) (sel : Selection) :
  renderable fs sel ->
  exists d,
    render fs sel = Ok d /\
    let index := map time (t_rows (selected_timeline fs sel)) in
    map fst (d_equity d) = index /\
    map fst (d_cum_pnl d) = index /\
    map fst (d_pct_change d) = index /\
    map fst (d_vol_rolling d) = index /\
    map fst (fst (d_signals d)) = index /\
    map fst (snd (d_signals d)) = index /\
    values (snd (d_signals d))
    = map (fun r => fill0 (signal r)) (t_rows (selected_timeline fs sel)) /\
    forall x, In x (values (snd (d_signals d))) -> is_nan x = false.
Proof.
  intros Hr. destruct (render_ok fs sel Hr) as (d & Hd).
  destruct (render_renderable_inv fs sel d Hr Hd) as (_ & Heq & Hpnl & _).
  destruct (render_renderable_charts fs sel d Hr Hd) as (_ & Hsig).
  destruct (render_volatility fs sel d Hd) as (Hpct & Hvol).
  exists d. split; [exact Hd | ]. cbv zeta.
  assert (H1 : map fst (d_equity d) = map time (t_rows (selected_timeline fs sel))).
  { rewrite Heq. unfold ffill. now rewrite ffill_from_index, map_map. }
  assert (H3 : map fst (d_pct_change d) = map time (t_rows (selected_timeline fs sel))).
  { rewrite Hpct. unfold pct_change_of, pct_change.
    now rewrite fillna0_index, pct_change_from_index. }
  split; [exact H1 | split; [ | split; [exact H3 | split; [ | ]]]].
  - now rewrite Hpnl, cum_pnl_of_index.
  - rewrite Hvol. unfold vol_rolling_of. now rewrite rolling_std_index.
  - rewrite Hsig. cbn [fst snd]. rewrite fillna0_index, !map_map. cbn [fst].
    repeat split.
    + unfold values, fillna0. rewrite !map_map. reflexivity.
    + unfold values, fillna0. rewrite !map_map. intros x Hx.
      apply in_map_iff in Hx as (r & <- & _). apply fill0_not_nan.
Qed.

Lemma series_share_the_index_sample :
  renderable sample_fs Last_Month /\
  exists d,
    render sample_fs Last_Month = Ok d /\
    let index := map time (t_rows (selected_timeline sample_fs Last_Month)) in
    map fst (d_equity d) = index /\
    map fst (d_cum_pnl d) = index /\
    map fst (d_pct_change d) = index /\
    map fst (d_vol_rolling d) = index /\
    map fst (fst (d_signals d)) = index /\
    map fst (snd (d_signals d)) = index /\
    values (snd (d_signals d))
    = map (fun r => fill0 (signal r)) (t_rows (selected_timeline sample_fs Last_Month)) /\
    forall x, In x (values (snd (d_signals d))) -> is_nan x = false.
Proof.
  split; [exact (sample_fs_renderable Last_Month) | ].
  exact (series_share_the_index sample_fs Last_Month (sample_fs_renderable Last_Month)).
Defined.

(** ** The comparison table *)

(** X11.  The comparison table does not depend on the period selected: two
    passes over the same files that run to their end show the same comparison
    table, whichever entries of the selector they were run for. *)
Theorem comparison_ignores_selection (fs : FileSystem) (sel1 sel2 : Selection)
    (d1 d2 : Dashboard) :
  render fs sel1 = Ok d1 -> render fs sel2 = Ok d2 ->
  d_comparison d1 = d_comparison d2.
Proof.
  intros H1 H2.
  apply render_inv in H1
    as (s1 & t1 & df1 & Hload1 & _ & _ & _ & _ & _ & _ & _ & _ & _ & _ & _ & _ & Hc1).
  apply render_inv in H2
    as (s2 & t2 & df2 & Hload2 & _ & _ & _ & _ & _ & _ & _ & _ & _ & _ & _ & _ & Hc2).
  apply load_backtest_data_inv in Hload1 as (-> & _).
  apply load_backtest_data_inv in Hload2 as (-> & _).
  congruence.
Qed.

Lemma comparison_ignores_selection_sample :
  exists d1 d2,
    render sample_fs Last_Month = Ok d1 /\
    render sample_fs Prior_2_Months = Ok d2 /\
    d_comparison d1 = d_comparison d2.
Proof.
  destruct (render_ok sample_fs Last_Month (sample_fs_renderable _)) as (d1 & H1).
  destruct (render_ok sample_fs Prior_2_Months (sample_fs_renderable _)) as (d2 & H2).
  exists d1, d2. split; [exact H1 | split; [exact H2 | ]].
  exact (comparison_ignores_selection sample_fs Last_Month Prior_2_Months d1 d2 H1 H2).
Defined.

Lemma Forall2_In_left {A B : Type} (P : A -> B -> Prop) (l : list A) (l' : list B)
    (a : A) :
  Forall2 P l l' -> In a l -> exists b, In b l' /\ P a b.
Proof.
  induction 1 as [ | x y l l' Hxy _ IH]; [intros [] | ].
  intros [<- | Hin].
  - exists y. split; [now left | exact Hxy].
  - destruct (IH Hin) as (b & Hb & Hab). exists b. split; [now right | exact Hab].
Qed.

Lemma period_names_of_selection (sel : Selection) :
  dict_get period_names (period_id sel) = Ok (selected_period_name sel).
Proof. destruct sel; reflexivity. Qed.

(** X12.  The selected period is in the comparison table under the name it
    has in the selector: on renderable inputs the comparison table has a row
    labelled with the selected entry and filled from the summary row of the
    period, and its five figures are, in the same formats, those of the
    metrics table above. *)
Theorem comparison_shows_selected_period (fs : FileSystem) (sel : Selection) :
  renderable fs sel ->
  exists d c,
    render fs sel = Ok d /\
    In c (d_comparison d) /\
    c = comparison_of (selected_period_name sel) (d_period_summary d) /\
    In ("Total Return (%)", c_return c) (d_metrics d) /\
    In ("Sharpe Ratio", c_sharpe c) (d_metrics d) /\
    In ("Max Drawdown (%)", c_max_dd c) (d_metrics d) /\
    In ("Win Rate (%)", c_win_rate c) (d_metrics d) /\
    In ("Trades Per Year", c_trades_year c) (d_metrics d).
Proof.
  intros Hr. destruct (render_ok fs sel Hr) as (d & Hd).
  destruct (render_renderable_inv fs sel d Hr Hd)
    as (Hfind & _ & _ & _ & Hmet & _ & _ & _ & Hcomp).
  apply comparison_data_inv in Hcomp.
  apply find_some in Hfind as (Hin & Hmatch). apply matches_eq in Hmatch.
  destruct (Forall2_In_left _ _ _ _ Hcomp Hin) as (c & Hc & Hname & Hrow).
  rewrite Hmatch, period_names_of_selection in Hname. injection Hname as Hname.
  rewrite <- Hname in Hrow.
  exists d, c. split; [exact Hd | split; [exact Hc | split; [exact Hrow | ]]].
  rewrite Hmet, Hrow. unfold metrics_of, comparison_of.
  cbn [c_return c_sharpe c_max_dd c_win_rate c_trades_year In].
  repeat split; tauto.
Qed.

Lemma comparison_shows_selected_period_sample :
  renderable sample_fs Full_3_Months /\
  exists d c,
    render sample_fs Full_3_Months = Ok d /\
    In c (d_comparison d) /\
    c = comparison_of "Full 3 Months" (d_period_summary d) /\
    In ("Total Return (%)", c_return c) (d_metrics d) /\
    In ("Sharpe Ratio", c_sharpe c) (d_metrics d) /\
    In ("Max Drawdown (%)", c_max_dd c) (d_metrics d) /\
    In ("Win Rate (%)", c_win_rate c) (d_metrics d) /\
    In ("Trades Per Year", c_trades_year c) (d_metrics d).
Proof.
  split; [exact (sample_fs_renderable Full_3_Months) | ].
  exact (comparison_shows_selected_period sample_fs Full_3_Months
           (sample_fs_renderable Full_3_Months)).
Defined.

Lemma dict_get_unknown (p : string) :
  known_period p = false -> dict_get period_names p = Raise (KeyError p).
Proof.
  unfold known_period, periods, period_names. cbn [existsb dict_get].
  destruct (String.eqb p "last_month"); [discriminate | ].
  destruct (String.eqb p "full_3mo"); [discriminate | ].
  destruct (String.eqb p "prior_2mo"); [discriminate | reflexivity].
Qed.

Lemma comparison_row_unknown (summary_df : SummaryFrame) (r : SummaryRow) :
  has_column (s_columns summary_df) "period" = true ->
  unknown_period r = true ->
  comparison_row summary_df r = Raise (KeyError (period r)).
Proof.
  intros Hcol Hunknown. unfold comparison_row.
  rewrite row_get_ok by assumption. cbn [bind].
  rewrite dict_get_unknown; [reflexivity | ].
  unfold unknown_period in Hunknown. now apply negb_true_iff in Hunknown.
Qed.

(** The loop stops at the first row whose period has no display name. *)
Lemma comparison_data_unknown (summary_df : SummaryFrame) (r : SummaryRow) :
  forallb (has_column (s_columns summary_df)) summary_schema = true ->
  find unknown_period (s_rows summary_df) = Some r ->
  comparison_data summary_df = Raise (KeyError (period r)).
Proof.
  intros Hcols. unfold comparison_data.
  induction (s_rows summary_df) as [ | a l IH]; [discriminate | ].
  cbn [find mapM]. destruct (unknown_period a) eqn:Ha.
  - intros [= <-]. rewrite comparison_row_unknown by (assumption || column).
    reflexivity.
  - intros Hfind.
    destruct (comparison_row_ok summary_df a Hcols) as (c & Hc).
    { unfold unknown_period in Ha. now apply negb_false_iff in Ha. }
    rewrite Hc, (IH Hfind). reflexivity.
Qed.

(** X13.  A period of the summary that the script has no display name for
    ends the pass, selected or not: on inputs on which everything above the
    comparison table is computed, a summary row whose period is none of
    last_month, full_3mo and prior_2mo makes the pass end with KeyError for
    the period of the first such row. *)
Theorem unknown_period_ends_the_pass (fs : FileSystem) (sel : Selection)
    (r : SummaryRow) :
  renders_up_to_comparison fs sel ->
  find unknown_period (s_rows (summary_at fs summary_path)) = Some r ->
  render fs sel = Raise (KeyError (period r)).
Proof.
  intros (Hfiles & Htl & Hcols & Htcols & Hmatch) Hunknown.
  assert (Hload : load_backtest_data fs =
                  Ok (summary_at fs summary_path,
                      map (fun p => (p, trimmed (timeline_at fs (timeline_path p))))
                          periods)).
  { rewrite load_backtest_data_spec.
    - now rewrite (first_missing_none fs Hfiles).
    - split.
      + intros _. split; column.
      + intros p Hin _. now apply Htl. }
  unfold render. rewrite Hload, period_options_get. cbn [bind].
  rewrite renderable_timeline. cbn [bind].
  rewrite select_period_find by column.
  destruct (find_existsb _ _ Hmatch) as (r0 & Hfind). rewrite Hfind. cbn [bind].
  rewrite row_get_ok by column. cbn [bind].
  assert (Heq : has_column (t_columns (selected_timeline fs sel)) "equity" = true).
  { apply (Htl (period_id sel) (period_id_In sel)). }
  assert (Hc : forall c, In c selected_timeline_columns ->
                         has_column (t_columns (selected_timeline fs sel)) c = true).
  { intros c Hin. apply (schema_column _ _ c Htcols Hin). }
  rewrite (getitem_ok _ _ _ Heq). cbn [bind].
  rewrite summary_header_ok, metrics_data_ok by assumption. cbn [bind].
  unfold daily_volume_of.
  rewrite (getitem_ok (selected_timeline fs sel) "volume_usd")
    by (apply Hc; simpl; tauto).
  cbn [bind].
  rewrite (getitem_ok (selected_timeline fs sel) "signal") by (apply Hc; simpl; tauto).
  cbn [bind].
  destruct (trades_chart_ok (selected_timeline fs sel)
              (ffill (map (fun r => (time r, equity r)) (t_rows (selected_timeline fs sel)))))
    as (chart & Hchart); [assumption | apply Hc; simpl; tauto .. | ].
  rewrite Hchart. cbn [bind].
  rewrite trade_log_of_ok by (apply Hc; simpl; tauto). cbn [bind].
  rewrite trade_log_table_of_eq. cbn [bind].
  rewrite (comparison_data_unknown _ r Hcols Hunknown). reflexivity.
Qed.

Lemma unknown_period_ends_the_pass_sample :
  renders_up_to_comparison sample_fs_unknown_period Last_Month /\
  find unknown_period (s_rows (summary_at sample_fs_unknown_period summary_path))
  = Some (summary_row "ytd" 1000 7) /\
  render sample_fs_unknown_period Last_Month = Raise (KeyError "ytd").
Proof.
  assert (H : renders_up_to_comparison sample_fs_unknown_period Last_Month).
  { destruct (sample_fs_renderable Last_Month) as (Hfiles & Htl & _).
    split; [exact Hfiles | split; [exact Htl | ]].
    split; [reflexivity | split; [reflexivity | reflexivity]]. }
  split; [exact H | split; [reflexivity | ]].
  exact (unknown_period_ends_the_pass sample_fs_unknown_period Last_Month
           (summary_row "ytd" 1000 7) H eq_refl).
Defined.

(** ** The trim on repeated timestamps *)

Lemma after_run_chronological (label : Timestamp) (l : list TimelineRow) :
  chronological l -> Forall (fun x => (label <= time x)%Z) l ->
  existsb (fun r => (time r =? label)%Z) (after_run label l) = false.
Proof.
  induction 1 as [ | a l Hl IH Ha]; intros Hge; [reflexivity | ].
  inversion Hge as [ | x xs Hx Hxs]; subst. cbn [after_run].
  destruct (Z.eqb_spec (time a) label) as [Heq | Hneq]; [now apply IH | ].
  destruct (existsb _ (a :: l)) eqn:Hex; [ | reflexivity].
  apply existsb_exists in Hex as (x & [<- | Hin] & Hlabel); apply Z.eqb_eq in Hlabel.
  - congruence.
  - rewrite Forall_forall in Ha. specialize (Ha x Hin). lia.
Qed.

Lemma slice_chronological (label : Timestamp) (l : list TimelineRow) :
  chronological l ->
  existsb (fun r => (time r =? label)%Z) (after_run label (from_label label l)) = false.
Proof.
  induction 1 as [ | a l Hl IH Ha]; [reflexivity | ].
  cbn [from_label]. destruct (Z.eqb_spec (time a) label) as [Heq | Hneq]; [ | exact IH].
  apply after_run_chronological; [now constructor | ].
  constructor; [lia | ]. rewrite <- Heq. exact Ha.
Qed.

Lemma from_label_chronological (label : Timestamp) (l : list TimelineRow) :
  chronological l -> (exists x, In x l /\ time x = label) ->
  from_label label l = filter (fun r => (label <=? time r)%Z) l.
Proof.
  induction 1 as [ | a l Hl IH Ha]; intros (x & Hin & Hx); [destruct Hin | ].
  cbn [from_label filter]. rewrite Forall_forall in Ha.
  destruct (Z.eqb_spec (time a) label) as [Heq | Hneq].
  - destruct (Z.leb_spec label (time a)) as [_ | Hlt]; [ | lia].
    f_equal. symmetry. apply forallb_filter_id. apply forallb_forall.
    intros y Hy. apply Z.leb_le. specialize (Ha y Hy). lia.
  - destruct Hin as [<- | Hin]; [congruence | ].
    specialize (Ha x Hin).
    destruct (Z.leb_spec label (time a)) as [Hle | _]; [lia | ].
    apply IH. eauto.
Qed.

(** X14.  Where the timestamps of a timeline are in order but repeat, the
    trim cuts at a timestamp, not at a row: on a table with an equity column
    and at least one row it returns the rows stamped no earlier than the
    first row with positive equity (the whole table when there is none), so
    a zero-equity row that shares the timestamp of the first positive one is
    kept. *)
Theorem trim_warmup_chronological (df : TimelineFrame) :
  has_column (t_columns df) "equity" = true ->
  t_rows df <> [] ->
  chronological (t_rows df) ->
  trim_warmup df
  = Ok {| t_columns := t_columns df;
          t_rows := match find (fun r => positive (equity r)) (t_rows df) with
                    | Some p => filter (fun r => (time p <=? time r)%Z) (t_rows df)
                    | None => t_rows df
                    end |}.
Proof.
  intros Hcol Hne Hsorted. unfold trim_warmup.
  rewrite (getitem_ok _ _ _ Hcol). cbn [bind].
  destruct df as [cols l]. unfold t_rows, t_columns in *.
  destruct l as [ | r0 l]; [congruence | ].
  rewrite idxmax_positive. cbn [bind]. unfold truthy, loc_from.
  unfold t_rows, t_columns.
  rewrite slice_chronological by assumption.
  rewrite find_first_positive.
  destruct (from_first_positive (r0 :: l)) as [ | p rest] eqn:Hffp.
  - now rewrite from_label_head.
  - rewrite from_label_chronological; [reflexivity | assumption | ].
    exists p. split; [ | reflexivity].
    apply from_first_positive_incl. rewrite Hffp. now left.
Qed.

Lemma repeated_label_chronological : chronological (t_rows repeated_label_timeline).
Proof.
  unfold repeated_label_timeline, chronological, t_rows.
  repeat (constructor; [ | repeat constructor; cbn; unfold minute; lia ]).
  constructor.
Qed.

Lemma trim_warmup_chronological_sample :
  has_column (t_columns repeated_label_timeline) "equity" = true /\
  t_rows repeated_label_timeline <> [] /\
  chronological (t_rows repeated_label_timeline) /\
  trim_warmup repeated_label_timeline
  = Ok {| t_columns := timeline_schema;
          t_rows := [ bar minute 0 0 0 false false; bar minute 1000 3 1 true false ] |}.
Proof.
  split; [reflexivity | split; [discriminate | split ]].
  - exact repeated_label_chronological.
  - exact (trim_warmup_chronological repeated_label_timeline eq_refl
             ltac:(discriminate) repeated_label_chronological).
Defined.

(** ** Days without volume and short timelines *)

Lemma compensated_sum_missing (vs : list float) (total c : float) :
  Forall (fun v => is_nan v = true) vs -> compensated_sum total c vs = total.
Proof.
  induction 1 as [ | v vs Hv _ IH]; [reflexivity | ].
  cbn [compensated_sum]. now rewrite Hv.
Qed.

Lemma volume_on_missing (l : list TimelineRow) (day : Z) :
  (forall r, In r l -> date (time r) = day -> is_nan (volume_usd r) = true) ->
  volume_on l day = 0%float.
Proof.
  intros H. unfold volume_on. apply compensated_sum_missing.
  apply Forall_forall. intros v Hv.
  apply in_map_iff in Hv as (r & <- & Hr). apply filter_In in Hr as (Hin & Hday).
  apply H; [exact Hin | now apply Z.eqb_eq].
Qed.

(** X15.  A day on which no volume is on record is in the daily volume with
    a total of zero, not left out and not missing: on renderable inputs, a
    date on which rows of the selected timeline fall, all of them with a
    missing volume, is listed with 0. *)
Theorem day_without_volume_totals_zero (fs : FileSystem) (sel : Selection) (day : Z) :
  renderable fs sel ->
  (exists r, In r (t_rows (selected_timeline fs sel)) /\ date (time r) = day) ->
  (forall r, In r (t_rows (selected_timeline fs sel)) ->
             date (time r) = day -> is_nan (volume_usd r) = true) ->
  exists d, render fs sel = Ok d /\ In (day, 0%float) (d_daily_volume d).
Proof.
  intros Hr Hrow Hmissing. destruct (render_ok fs sel Hr) as (d & Hd).
  destruct (render_renderable_inv fs sel d Hr Hd)
    as (_ & _ & _ & _ & _ & Hdaily & _).
  destruct (groupby_date_sum_spec (t_rows (selected_timeline fs sel)))
    as (_ & Hpairs).
  exists d. split; [exact Hd | ].
  rewrite Hdaily. apply Hpairs. split; [exact Hrow | ].
  symmetry. now apply volume_on_missing.
Qed.

Lemma sample_fs_missing_volume_renderable :
  renderable sample_fs_missing_volume Last_Month.
Proof.
  split; [exact sample_fs_complete | ].
  split; [intros p _; repeat split; [discriminate | solve_nodup] | ].
  repeat split; reflexivity.
Qed.

Lemma sample_fs_missing_volume_first_day :
  forall r, In r (t_rows (selected_timeline sample_fs_missing_volume Last_Month)) ->
            date (time r) = 0%Z -> is_nan (volume_usd r) = true.
Proof.
  intros r Hin Hday. vm_compute in Hin.
  destruct Hin as [<- | [<- | [<- | []]]]; [reflexivity | reflexivity | ].
  vm_compute in Hday. discriminate.
Qed.

Lemma day_without_volume_totals_zero_sample :
  renderable sample_fs_missing_volume Last_Month /\
  exists d,
    render sample_fs_missing_volume Last_Month = Ok d /\
    In (0%Z, 0%float) (d_daily_volume d).
Proof.
  split; [exact sample_fs_missing_volume_renderable | ].
  refine (day_without_volume_totals_zero sample_fs_missing_volume Last_Month 0
            sample_fs_missing_volume_renderable _
            sample_fs_missing_volume_first_day).
  exists (bar 0 1000 nan 1 true false). split; [now left | reflexivity].
Defined.

(** X16.  A timeline shorter than the window has no volatility to show: on
    renderable inputs whose selected timeline has fewer than 30 rows after
    the trim, the rolling volatility has a row for every row of the timeline
    and every one of its values is missing. *)
Theorem short_timeline_has_no_volatility (fs : FileSystem) (sel : Selection) :
  renderable fs sel ->
  (List.length (t_rows (selected_timeline fs sel)) < 30)%nat ->
  exists d,
    render fs sel = Ok d /\
    List.length (d_vol_rolling d) = List.length (t_rows (selected_timeline fs sel)) /\
    forall x, In x (values (d_vol_rolling d)) -> is_nan x = true.
Proof.
  intros Hr Hshort. destruct (render_ok fs sel Hr) as (d & Hd).
  destruct (render_renderable_inv fs sel d Hr Hd) as (_ & Heq & _).
  destruct (render_volatility fs sel d Hd) as (Hpct & Hvol).
  assert (Hlen : List.length (d_pct_change d)
                 = List.length (t_rows (selected_timeline fs sel))).
  { rewrite <- (length_map fst (d_pct_change d)), Hpct.
    unfold pct_change_of, pct_change.
    rewrite fillna0_index, pct_change_from_index, Heq. unfold ffill.
    now rewrite ffill_from_index, !length_map. }
  assert (Hlen' : List.length (d_vol_rolling d) = List.length (d_pct_change d)).
  { rewrite <- (length_map fst (d_vol_rolling d)), Hvol.
    unfold vol_rolling_of. now rewrite rolling_std_index, length_map. }
  exists d. split; [exact Hd | split; [congruence | ]].
  intros x Hx. apply In_nth_error in Hx as (i & Hi).
  assert (Hlt : (i < List.length (d_pct_change d))%nat).
  { rewrite <- Hlen'. rewrite <- (length_map snd (d_vol_rolling d)).
    apply nth_error_Some. unfold values in Hi. congruence. }
  rewrite Hvol in Hi. unfold vol_rolling_of in Hi.
  rewrite rolling_std_early in Hi by (exact Hlt || lia).
  now injection Hi as <-.
Qed.

Lemma short_timeline_has_no_volatility_sample :
  renderable sample_fs Last_Month /\
  (List.length (t_rows (selected_timeline sample_fs Last_Month)) < 30)%nat /\
  exists d,
    render sample_fs Last_Month = Ok d /\
    List.length (d_vol_rolling d)
    = List.length (t_rows (selected_timeline sample_fs Last_Month)) /\
    forall x, In x (values (d_vol_rolling d)) -> is_nan x = true.
Proof.
  assert (H : (List.length (t_rows (selected_timeline sample_fs Last_Month)) < 30)%nat)
    by (vm_compute; lia).
  split; [exact (sample_fs_renderable Last_Month) | split; [exact H | ]].
  exact (short_timeline_has_no_volatility sample_fs Last_Month
           (sample_fs_renderable Last_Month) H).
Defined.
